(** * CircleLimit: the hyperbolic texture pipeline of [PoincareTexture]

    A shallow embedding of the class [PoincareTexture] of
    [src/CircleLimit.cpp]: the lattice generator [calcH], the disk
    projector [calcP], the geodesic builder [calcC], the region classifier
    [countCircles] and the rasterizer [RenderToTexture], together with the
    constructor and [increaseResolution].

    The C++ code computes on [float], with [double] intermediates where the
    C library or the constant [M_PI] promotes.  The embedding has one type
    [F] for both and is written once over an interface [FloatOps] of the
    operations the code uses, with no law assumed about them; every statement
    about the control flow and the data flow (which pixel gets which colour,
    how many entries a vector has and in which order) is proved for every
    implementation of that interface.  The geometric statements (points on
    the hyperboloid, points inside the disk, orthogonal circles) are proved
    for the instance [R_ops], which reads every floating-point operation as
    the real-number operation it rounds; they say nothing about rounding
    errors.

    The [int] values of the code (loop counters, dimensions, the circle
    count) are integers of [Z]: the counters stay below their bounds and the
    count below the number of circles, and signed overflow of
    [width += increaseBy] is undefined behaviour in C++ and left out. *)

From Stdlib Require Import ZArith List Bool Lia Ascii.
From Stdlib Require Import Reals Lra.
From Equations Require Import Equations.
Import ListNotations.

Set Implicit Arguments.

(** ** The arithmetic of the program *)

(** The operations [CircleLimit.cpp] applies to [float] and [double] values.
    [of_int] is the conversion of an [int] (a cast such as [(float) xC], or an
    integer literal used in a floating-point expression); [fpow x n] stands
    for [powf(x, n)] and [pow(x, n)] at an integer exponent; [fle] and [fgt]
    are the comparisons [<=] and [>]. *)
Class FloatOps (F : Type) : Type := {
  of_int : Z -> F;
  lit_0_5 : F;
  lit_5_5 : F;
  M_PI : F;
  fadd : F -> F -> F;
  fsub : F -> F -> F;
  fmul : F -> F -> F;
  fdiv : F -> F -> F;
  fsqrt : F -> F;
  fpow : F -> nat -> F;
  fcos : F -> F;
  fsin : F -> F;
  fcosh : F -> F;
  fsinh : F -> F;
  fle : F -> F -> bool;
  fgt : F -> F -> bool
}.

Declare Scope float_scope.
Delimit Scope float_scope with flt.
Infix "+" := fadd : float_scope.
Infix "-" := fsub : float_scope.
Infix "*" := fmul : float_scope.
Infix "/" := fdiv : float_scope.
Infix "<=?" := fle : float_scope.
Infix ">?" := fgt : float_scope.

(** ** Vectors *)

Record vec2 (F : Type) : Type := mkvec2 { v2x : F; v2y : F }.
Record vec3 (F : Type) : Type := mkvec3 { v3x : F; v3y : F; v3z : F }.
Record vec4 (F : Type) : Type := mkvec4 { v4x : F; v4y : F; v4z : F; v4w : F }.

(** What the base class [Texture] holds after [create(width, height, image)]. *)
Record Texture (F : Type) : Type := mkTexture {
  tex_width : Z;
  tex_height : Z;
  tex_image : list (vec4 F)
}.

(** The data members of [PoincareTexture]; [texture] is the state of its base
    class, [None] until [create] has been called. *)
Record PoincareTexture (F : Type) : Type := mkPoincareTexture {
  width : Z;
  height : Z;
  points : list (vec3 F);
  centres : list (vec3 F);
  hyperbolicPoints : list (vec3 F);
  poincarePoints : list (vec2 F);
  circles : list (vec3 F);
  texture : option (Texture F)
}.

Section Pipeline.

Context {F : Type} {ops : FloatOps F}.
Local Open Scope float_scope.

Local Abbreviation vec2 := (vec2 F).
Local Abbreviation vec3 := (vec3 F).
Local Abbreviation vec4 := (vec4 F).
Local Abbreviation PoincareTexture := (PoincareTexture F).

(** *** Vector operations of [framework.h] *)

(** Modelled from the spec: [framework.h] is not among the sources; [vec3]
    times a scalar multiplies each component (the spec's [(0,0,1)·sinh(d)]). *)
Definition vec3_scale (v : vec3) (a : F) : vec3 :=
  mkvec3 (v3x v * a) (v3y v * a) (v3z v * a).

(** Modelled from the spec: [framework.h] is not among the sources; the sum
    of two [vec3] is taken component by component. *)
Definition vec3_add (u v : vec3) : vec3 :=
  mkvec3 (v3x u + v3x v) (v3y u + v3y v) (v3z u + v3z v).

(** Modelled from the spec: [framework.h] is not among the sources; [vec2]
    times a scalar multiplies each component (the spec's [normalize(q)·g]). *)
Definition vec2_scale (v : vec2) (a : F) : vec2 :=
  mkvec2 (v2x v * a) (v2y v * a).

(** Modelled from the spec: [framework.h] is not among the sources; the sum
    of two [vec2] is taken component by component. *)
Definition vec2_add (u v : vec2) : vec2 :=
  mkvec2 (v2x u + v2x v) (v2y u + v2y v).

(** Modelled from the spec: [framework.h] is not among the sources; the
    Euclidean norm [‖v‖] of the spec, the square root of the dot product of
    [v] with itself. *)
Definition length2 (v : vec2) : F :=
  fsqrt (v2x v * v2x v + v2y v * v2y v).

(** Modelled from the spec: [framework.h] is not among the sources;
    [normalize(v)] is [v] scaled by the inverse of its norm. *)
Definition normalize (v : vec2) : vec2 :=
  vec2_scale v (of_int 1 / length2 v).

(** *** HyperbolicLattice: [calcH] *)

Definition calculateIv (i : Z) : vec3 :=
  mkvec3 (fcos (of_int (i * 40) * M_PI / of_int 180))
         (fsin (of_int (i * 40) * M_PI / of_int 180))
         (of_int 0).

Definition apex : vec3 := mkvec3 (of_int 0) (of_int 0) (of_int 1).

Definition calculateIvv (iv : vec3) (dh : F) : vec3 :=
  vec3_add (vec3_scale apex (fsinh dh)) (vec3_scale iv (fcosh dh)).

Definition calculateP (ivv : vec3) (dh : F) : vec3 :=
  vec3_add (vec3_scale apex (fcosh dh)) (vec3_scale ivv (fsinh dh)).

(** The inner loop of [calcH], [while (dh <= 5.5) { ...; dh++; }].  Its
    guard is a floating-point comparison, so the loop is run on fuel: [None]
    when the fuel is used up before the guard fails. *)
Fixpoint calcH_distances (fuel : nat) (iv : vec3) (dh : F) (hp : list vec3)
  : option (list vec3) :=
  match fuel with
  | O => None
  | S fuel' =>
      if dh <=? lit_5_5 then
        let ivv := calculateIvv iv dh in
        let p := calculateP ivv dh in
        calcH_distances fuel' iv (dh + of_int 1) (hp ++ [p])
      else Some hp
  end.

#[local] Arguments Z.sub : simpl never.
#[local] Arguments Z.add : simpl never.

(** The outer loop of [calcH], [while (i < 9) { ...; i++; }]. *)
Equations? calcH_directions (fuel : nat) (i : Z) (hp : list vec3)
  : option (list vec3) by wf (Z.to_nat (9 - i)) lt :=
  calcH_directions fuel i hp with Z_lt_dec i 9 := {
    | left _ with calcH_distances fuel (calculateIv i) lit_0_5 hp := {
        | Some hp' => calcH_directions fuel (i + 1) hp'
        | None => None }
    | right _ => Some hp }.
Proof. lia. Qed.

Definition set_hyperbolicPoints (s : PoincareTexture) (hp : list vec3)
  : PoincareTexture :=
  mkPoincareTexture (width s) (height s) (points s) (centres s) hp
    (poincarePoints s) (circles s) (texture s).

Definition set_poincarePoints (s : PoincareTexture) (pp : list vec2)
  : PoincareTexture :=
  mkPoincareTexture (width s) (height s) (points s) (centres s)
    (hyperbolicPoints s) pp (circles s) (texture s).

Definition set_circles (s : PoincareTexture) (cs : list vec3)
  : PoincareTexture :=
  mkPoincareTexture (width s) (height s) (points s) (centres s)
    (hyperbolicPoints s) (poincarePoints s) cs (texture s).

Definition calcH (fuel : nat) (s : PoincareTexture) : option PoincareTexture :=
  option_map (set_hyperbolicPoints s)
    (calcH_directions fuel 0 (hyperbolicPoints s)).

(** *** DiskProjector: [calcP] *)

Definition calculateOszto (point : vec3) : F := v3z point + of_int 1.

Definition addPP (pp : list vec2) (point : vec3) (oszto : F) : list vec2 :=
  pp ++ [mkvec2 (v3x point / oszto) (v3y point / oszto)].

(** The iterator loop of [calcP] over [hyperbolicPoints]. *)
Fixpoint calcP_loop (it : list vec3) (pp : list vec2) : list vec2 :=
  match it with
  | [] => pp
  | point :: it' =>
      let oszto := calculateOszto point in
      calcP_loop it' (addPP pp point oszto)
  end.

Definition calcP (s : PoincareTexture) : PoincareTexture :=
  set_poincarePoints s (calcP_loop (hyperbolicPoints s) (poincarePoints s)).

(** *** GeodesicBuilder: [calcC] *)

Definition calculateR (point : vec2) : F :=
  (of_int 1 / fsqrt (fpow (v2x point) 2 + fpow (v2y point) 2)
   - fsqrt (fpow (v2x point) 2 + fpow (v2y point) 2)) / of_int 2.

(** The circle [calcC] stores for one Poincare point. *)
Definition circleOf (point : vec2) : vec3 :=
  let r := calculateR point in
  let i := normalize point in
  let origo := vec2_add point (vec2_scale i r) in
  mkvec3 (v2x origo) (v2y origo) r.

(** The iterator loop of [calcC] over [poincarePoints]. *)
Fixpoint calcC_loop (it : list vec2) (cs : list vec3) : list vec3 :=
  match it with
  | [] => cs
  | point :: it' => calcC_loop it' (cs ++ [circleOf point])
  end.

Definition calcC (s : PoincareTexture) : PoincareTexture :=
  set_circles s (calcC_loop (poincarePoints s) (circles s)).

(** *** RegionClassifier: [countCircles] *)

Definition calculateDistance (point : vec2) (circle : vec3) : F :=
  fsqrt (fpow (v2x point - v3x circle) 2 + fpow (v2y point - v3y circle) 2).

(** The iterator loop of [countCircles] over [circles]; [count] is an [int]
    that grows by at most one per circle. *)
Fixpoint countCircles_loop (point : vec2) (it : list vec3) (count : Z) : Z :=
  match it with
  | [] => count
  | circle :: it' =>
      countCircles_loop point it'
        (if calculateDistance point circle <=? v3z circle
         then (count + 1)%Z else count)
  end.

Definition countCircles (s : PoincareTexture) (point : vec2) : Z :=
  countCircles_loop point (circles s) 0.

Definition manyCircles (s : PoincareTexture) (point : vec2) : Z :=
  countCircles s point.

Definition math (fuel : nat) (s : PoincareTexture) : option PoincareTexture :=
  option_map (fun s1 => calcC (calcP s1)) (calcH fuel s).

(** *** TextureSynthesizer: [RenderToTexture] *)

Definition black : vec4 := mkvec4 (of_int 0) (of_int 0) (of_int 0) (of_int 1).
Definition yellow : vec4 := mkvec4 (of_int 1) (of_int 1) (of_int 0) (of_int 1).
Definition blue : vec4 := mkvec4 (of_int 0) (of_int 0) (of_int 1) (of_int 1).

(** The normalized coordinate of a pixel index; [RenderToTexture] divides
    both [xC] and [yC] by [textureWidth]. *)
Definition normalized (c textureWidth : Z) : F :=
  of_int c / of_int textureWidth * of_int 2 - of_int 1.

(** The body of the inner loop of [RenderToTexture]: the colour appended for
    the pixel [(xC, yC)].  [count % 2] is C++'s remainder, [Z.rem]. *)
Definition pixel (s : PoincareTexture) (textureWidth xC yC : Z) : vec4 :=
  let x := normalized xC textureWidth in
  let y := normalized yC textureWidth in
  let count := manyCircles s (mkvec2 x y) in
  if fsqrt (fpow x 2 + fpow y 2) >? of_int 1 then black
  else if (Z.rem count 2 =? 0)%Z then yellow
  else blue.

(** The inner loop, [while (xC < textureWidth) { ...; xC++; }], as a
    transformer of the loop variables: it returns [xC] and [textureData] as
    they are when the guard fails. *)
Equations? RenderToTexture_columns (s : PoincareTexture)
  (textureWidth yC xC : Z) (textureData : list vec4)
  : Z * list vec4 by wf (Z.to_nat (textureWidth - xC)) lt :=
  RenderToTexture_columns s textureWidth yC xC textureData
    with Z_lt_dec xC textureWidth := {
    | left _ =>
        RenderToTexture_columns s textureWidth yC (xC + 1)
          (textureData ++ [pixel s textureWidth xC yC])
    | right _ => (xC, textureData) }.
Proof. lia. Qed.

(** The outer loop, [while (yC < textureHeight) { int xC = 0; ...; yC++; }],
    returning [yC] and [textureData] as they are when the guard fails. *)
Equations? RenderToTexture_rows (s : PoincareTexture)
  (textureWidth textureHeight yC : Z) (textureData : list vec4)
  : Z * list vec4 by wf (Z.to_nat (textureHeight - yC)) lt :=
  RenderToTexture_rows s textureWidth textureHeight yC textureData
    with Z_lt_dec yC textureHeight := {
    | left _ =>
        RenderToTexture_rows s textureWidth textureHeight (yC + 1)
          (snd (RenderToTexture_columns s textureWidth yC 0 textureData))
    | right _ => (yC, textureData) }.
Proof. lia. Qed.

Definition RenderToTexture (s : PoincareTexture)
  (textureWidth textureHeight : Z) : list vec4 :=
  snd (RenderToTexture_rows s textureWidth textureHeight 0 []).

(** *** Constructor and [increaseResolution] *)

(** Modelled from the spec: [Texture::create] is declared in [framework.h],
    which is not among the sources; the texture resource consumes the grid and
    is fully replaced by it, so the base class then holds the dimensions and
    the image it was given. *)
Definition create (s : PoincareTexture) (w h : Z) (image : list vec4)
  : PoincareTexture :=
  mkPoincareTexture (width s) (height s) (points s) (centres s)
    (hyperbolicPoints s) (poincarePoints s) (circles s)
    (Some (mkTexture w h image)).

Definition set_width (s : PoincareTexture) (w : Z) : PoincareTexture :=
  mkPoincareTexture w (height s) (points s) (centres s)
    (hyperbolicPoints s) (poincarePoints s) (circles s) (texture s).

Definition set_height (s : PoincareTexture) (h : Z) : PoincareTexture :=
  mkPoincareTexture (width s) h (points s) (centres s)
    (hyperbolicPoints s) (poincarePoints s) (circles s) (texture s).

(** The object after the member initializers of the constructor, before its
    body runs: the two dimensions are set, the vectors are empty and no
    texture has been created. *)
Definition member_init (w h : Z) : PoincareTexture :=
  mkPoincareTexture w h [] [] [] [] [] None.

(** The constructor [PoincareTexture(width, height)]. *)
Definition construct (fuel : nat) (w h : Z) : option PoincareTexture :=
  option_map
    (fun s =>
       let im := RenderToTexture s w h in
       create s w h im)
    (math fuel (member_init w h)).

Definition increaseResolution (s : PoincareTexture) (increaseBy : Z)
  : PoincareTexture :=
  let s1 := set_width s (width s + increaseBy) in
  let s2 := set_height s1 (height s1 + increaseBy) in
  let im := RenderToTexture s2 (width s2) (height s2) in
  create s2 (width s2) (height s2) im.

(** *** The same results, written as maps and filters *)

(** The projection [calcP] applies to one hyperboloid point. *)
Definition project (point : vec3) : vec2 :=
  mkvec2 (v3x point / (v3z point + of_int 1))
         (v3y point / (v3z point + of_int 1)).

(** The containment test of [countCircles]. *)
Definition contains (point : vec2) (circle : vec3) : bool :=
  calculateDistance point circle <=? v3z circle.

(** One row of the grid: the pixels [(0, yC)], ..., [(W-1, yC)]. *)
Definition grid_row (s : PoincareTexture) (W yC : Z) : list vec4 :=
  map (fun k => pixel s W (Z.of_nat k) yC) (seq 0 (Z.to_nat W)).

(** The grid, row after row. *)
Definition grid (s : PoincareTexture) (W H : Z) : list vec4 :=
  flat_map (fun j => grid_row s W (Z.of_nat j)) (seq 0 (Z.to_nat H)).

End Pipeline.

(** ** The real-number reading of the arithmetic *)

Definition Rleb (a b : R) : bool := if Rle_dec a b then true else false.
Definition Rgtb (a b : R) : bool := if Rgt_dec a b then true else false.

(** Every operation of [FloatOps] read as the operation of [R] it rounds. *)
#[export] Instance R_ops : FloatOps R := {|
  of_int := IZR;
  lit_0_5 := (1 / 2)%R;
  lit_5_5 := (11 / 2)%R;
  M_PI := PI;
  fadd := Rplus;
  fsub := Rminus;
  fmul := Rmult;
  fdiv := Rdiv;
  fsqrt := sqrt;
  fpow := pow;
  fcos := cos;
  fsin := sin;
  fcosh := cosh;
  fsinh := sinh;
  fle := Rleb;
  fgt := Rgtb
|}.

(** ** The lattice as the specification words it *)

Module LatticeSpec.

Local Open Scope R_scope.

(** An angle given in degrees, in radians. *)
Definition degrees (a : R) : R := a * PI / 180.

(** The nine generator directions, by index. *)
Definition directions : list Z := [0; 1; 2; 3; 4; 5; 6; 7; 8]%Z.

(** The six hyperbolic distances 0.5, 1.5, ..., 5.5. *)
Definition distances : list R := [1/2; 3/2; 5/2; 7/2; 9/2; 11/2].

(** The unit vector [(cos θ, sin θ, 0)] at [θ = i·40°]. *)
Definition direction (i : Z) : vec3 R :=
  mkvec3 (cos (degrees (IZR i * 40))) (sin (degrees (IZR i * 40))) 0.

(** [ivv = (0,0,1)·sinh(d) + iv·cosh(d)]. *)
Definition ivv_of (iv : vec3 R) (d : R) : vec3 R :=
  mkvec3 (0 * sinh d + v3x iv * cosh d)
         (0 * sinh d + v3y iv * cosh d)
         (1 * sinh d + v3z iv * cosh d).

(** [p = (0,0,1)·cosh(d) + ivv·sinh(d)]. *)
Definition point_of (ivv : vec3 R) (d : R) : vec3 R :=
  mkvec3 (0 * cosh d + v3x ivv * sinh d)
         (0 * cosh d + v3y ivv * sinh d)
         (1 * cosh d + v3z ivv * sinh d).

(** The lattice point of direction [i] at distance [d]. *)
Definition lattice_point (i : Z) (d : R) : vec3 R :=
  point_of (ivv_of (direction i) d) d.

(** The 54 points, direction-major and distance-minor. *)
Definition lattice : list (vec3 R) :=
  flat_map (fun i => map (lattice_point i) distances) directions.

End LatticeSpec.

(** ** The star and the event handlers *)

(** The comparison [==] of two floating-point values, used by
    [schlankheitsfaktor] on texture coordinates. *)
Class FloatEq (F : Type) : Type := {
  feq : F -> F -> bool
}.

Infix "=?" := feq : float_scope.

Record VertexData (F : Type) : Type := mkVertexData {
  position : vec2 F;
  uv : vec2 F
}.

(** The data members of [Star] that the C++ code computes with: the array
    [data] of ten vertices, the texture and the two angles.  The handles
    [vao] and [vbo] of the OpenGL objects, and the copies of [data] that
    [glBufferData] uploads, are outside the model. *)
Record Star (F : Type) : Type := mkStar {
  data : list (VertexData F);
  star_texture : PoincareTexture F;
  phi : F;
  selfRotation : F
}.

(** The global variables of the program, once [onInitialization] has run. *)
Record App (F : Type) : Type := mkApp {
  star : Star F;
  isAnimating : bool;
  time : Z;
  mouseLeftPressed : bool;
  mouseRightPressed : bool
}.

Section StarAndEvents.

Context {F : Type} {ops : FloatOps F} {eqops : FloatEq F}.
Local Open Scope float_scope.

(** The constants of the GLUT header for mouse buttons and button states. *)
Variables GLUT_LEFT_BUTTON GLUT_RIGHT_BUTTON GLUT_DOWN : Z.

(** [Star::updateV]: the ten assignments to [data[0]], ..., [data[9]]. *)
Definition updateV (st : Star F) : Star F :=
  mkStar
    [ mkVertexData (mkvec2 (of_int 50) (of_int 30)) (mkvec2 lit_0_5 lit_0_5);
      mkVertexData (mkvec2 (of_int 70) (of_int 30)) (mkvec2 (of_int 1) lit_0_5);
      mkVertexData (mkvec2 (of_int 90) (of_int 70)) (mkvec2 (of_int 1) (of_int 1));
      mkVertexData (mkvec2 (of_int 50) (of_int 50)) (mkvec2 lit_0_5 (of_int 1));
      mkVertexData (mkvec2 (of_int 10) (of_int 70)) (mkvec2 (of_int 0) (of_int 1));
      mkVertexData (mkvec2 (of_int 30) (of_int 30)) (mkvec2 (of_int 0) lit_0_5);
      mkVertexData (mkvec2 (of_int 10) (of_int (-10))) (mkvec2 (of_int 0) (of_int 0));
      mkVertexData (mkvec2 (of_int 50) (of_int 10)) (mkvec2 lit_0_5 (of_int 0));
      mkVertexData (mkvec2 (of_int 90) (of_int (-10))) (mkvec2 (of_int 1) (of_int 0));
      mkVertexData (mkvec2 (of_int 70) (of_int 30)) (mkvec2 (of_int 1) lit_0_5) ]
    (star_texture st) (phi st) (selfRotation st).

(** [Star::Animate]. *)
Definition Animate (st : Star F) (t : F) : Star F :=
  let rotationSpeed := of_int 2 * M_PI / of_int 10 in
  mkStar (data st) (star_texture st) (t * rotationSpeed) (t * rotationSpeed).

(** The body of the loop of [schlankheitsfaktor] for one vertex. *)
Definition schlankheitsfaktor_vertex (s : F) (v : VertexData F) : VertexData F :=
  if (v2x (uv v) =? lit_0_5) && (v2y (uv v) =? of_int 1) then
    mkVertexData (mkvec2 (v2x (position v)) (v2y (position v) - s)) (uv v)
  else if (v2x (uv v) =? lit_0_5) && (v2y (uv v) =? of_int 0) then
    mkVertexData (mkvec2 (v2x (position v)) (v2y (position v) + s)) (uv v)
  else if (v2x (uv v) =? of_int 0) && (v2y (uv v) =? lit_0_5) then
    mkVertexData (mkvec2 (v2x (position v) + s) (v2y (position v))) (uv v)
  else if (v2x (uv v) =? of_int 1) && (v2y (uv v) =? lit_0_5) then
    mkVertexData (mkvec2 (v2x (position v) - s) (v2y (position v))) (uv v)
  else v.

(** The pointer loop of [schlankheitsfaktor] over [data]. *)
Fixpoint schlankheitsfaktor_loop (s : F) (it : list (VertexData F))
  : list (VertexData F) :=
  match it with
  | [] => []
  | v :: it' => schlankheitsfaktor_vertex s v :: schlankheitsfaktor_loop s it'
  end.

(** [Star::schlankheitsfaktor]. *)
Definition schlankheitsfaktor (st : Star F) (s : F) : Star F :=
  mkStar (schlankheitsfaktor_loop s (data st))
    (star_texture st) (phi st) (selfRotation st).

(** The constructor [Star(width, height)]: the texture is constructed, then
    [Animate(0)] and [updateV()] run.  The array [data] holds nothing that is
    read before [updateV] assigns all of it. *)
Definition Star_construct (fuel : nat) (w h : Z) : option (Star F) :=
  option_map
    (fun tex => updateV (Animate (mkStar [] tex (of_int 0) (of_int 0)) (of_int 0)))
    (construct fuel w h).

(** [onInitialization]: the star is created at 300×300; the other globals
    have their static initial values. *)
Definition onInitialization (fuel : nat) : option (App F) :=
  option_map (fun st => mkApp st false 0 false false)
    (Star_construct fuel 300 300).

Definition set_star (a : App F) (st : Star F) : App F :=
  mkApp st (isAnimating a) (time a) (mouseLeftPressed a) (mouseRightPressed a).

Definition set_star_texture (st : Star F) (tex : PoincareTexture F) : Star F :=
  mkStar (data st) tex (phi st) (selfRotation st).

(** [onKeyboard]; [elapsed] is what [glutGet(GLUT_ELAPSED_TIME)] returns when
    the key ['a'] reads the clock.  The keys ['t'] and ['T'] only set OpenGL
    texture parameters, and [glutPostRedisplay] only asks for a redraw:
    neither changes a variable of the program. *)
Definition onKeyboard (key : Ascii.ascii) (elapsed : Z) (a : App F) : App F :=
  if Ascii.eqb key "h" then
    set_star a (schlankheitsfaktor (star a) (of_int (-10)))
  else if Ascii.eqb key "H" then
    set_star a (schlankheitsfaktor (star a) (of_int 10))
  else if Ascii.eqb key "a" then
    mkApp (star a) (negb (isAnimating a)) elapsed
      (mouseLeftPressed a) (mouseRightPressed a)
  else if Ascii.eqb key "r" then
    set_star a
      (set_star_texture (star a) (increaseResolution (star_texture (star a)) 100))
  else if Ascii.eqb key "R" then
    set_star a
      (set_star_texture (star a) (increaseResolution (star_texture (star a)) (-100)))
  else a.

(** [onMouse]; the call of [onMouseMotion] at its end computes two local
    values and asks for a redraw, and changes no variable. *)
Definition onMouse (button state : Z) (a : App F) : App F :=
  let a1 :=
    if (button =? GLUT_LEFT_BUTTON)%Z then
      mkApp (star a) (isAnimating a) (time a)
        (if (state =? GLUT_DOWN)%Z then true else false) (mouseRightPressed a)
    else a in
  if (button =? GLUT_RIGHT_BUTTON)%Z then
    mkApp (star a1) (isAnimating a1) (time a1)
      (mouseLeftPressed a1) (if (state =? GLUT_DOWN)%Z then true else false)
  else a1.

(** [onIdle]; [currentTime] is what [glutGet(GLUT_ELAPSED_TIME)] returns. *)
Definition onIdle (currentTime : Z) (a : App F) : App F :=
  if isAnimating a then
    let elapsedTime := of_int (currentTime - time a) / of_int 1000 in
    set_star a (Animate (star a) elapsedTime)
  else a.

(** The states of the program: the one [onInitialization] leaves, and every
    state a handler produces from one of them, whatever the key, the button,
    the button state and the clock value it is called with. *)
Inductive Reachable (fuel : nat) : App F -> Prop :=
  | Reachable_init (a : App F) :
      onInitialization fuel = Some a -> Reachable fuel a
  | Reachable_key (key : Ascii.ascii) (elapsed : Z) (a : App F) :
      Reachable fuel a -> Reachable fuel (onKeyboard key elapsed a)
  | Reachable_mouse (button state : Z) (a : App F) :
      Reachable fuel a -> Reachable fuel (onMouse button state a)
  | Reachable_idle (currentTime : Z) (a : App F) :
      Reachable fuel a -> Reachable fuel (onIdle currentTime a).

End StarAndEvents.

Definition Reqb (a b : R) : bool := if Req_dec_T a b then true else false.

(** The comparison [==] read as equality of real numbers. *)
#[export] Instance R_eq : FloatEq R := {| feq := Reqb |}.

(** ** What the pipeline computes, for every arithmetic *)

Unset Implicit Arguments.

Section PipelineFacts.

Context {F : Type} {ops : FloatOps F}.
Local Open Scope float_scope.

Implicit Types (s : PoincareTexture F) (W H : Z).

Lemma calcP_loop_map (it : list (vec3 F)) (pp : list (vec2 F)) :
  calcP_loop it pp = pp ++ map project it.
Proof.
  revert pp; induction it as [|point it IH]; intros pp; simpl.
  - now rewrite app_nil_r.
  - rewrite IH. unfold addPP, calculateOszto, project.
    now rewrite <- app_assoc.
Qed.

Lemma calcC_loop_map (it : list (vec2 F)) (cs : list (vec3 F)) :
  calcC_loop it cs = cs ++ map circleOf it.
Proof.
  revert cs; induction it as [|point it IH]; intros cs; simpl.
  - now rewrite app_nil_r.
  - rewrite IH. now rewrite <- app_assoc.
Qed.

Lemma countCircles_loop_filter (point : vec2 F) (it : list (vec3 F)) (count : Z) :
  countCircles_loop point it count
  = (count + Z.of_nat (length (filter (contains point) it)))%Z.
Proof.
  revert count; induction it as [|circle it IH]; intros count; simpl.
  - lia.
  - rewrite IH. unfold contains.
    destruct (calculateDistance point circle <=? v3z circle); simpl; lia.
Qed.

Lemma countCircles_filter s (point : vec2 F) :
  countCircles s point
  = Z.of_nat (length (filter (contains point) (circles s))).
Proof. unfold countCircles. now rewrite countCircles_loop_filter. Qed.

Lemma columns_exit s W yC xC (td : list (vec4 F)) :
  (W <= xC)%Z -> RenderToTexture_columns s W yC xC td = (xC, td).
Proof.
  intros Hx. simp RenderToTexture_columns.
  destruct (Z_lt_dec xC W); [lia | reflexivity].
Qed.

Lemma columns_step s W yC xC (td : list (vec4 F)) :
  (xC < W)%Z ->
  RenderToTexture_columns s W yC xC td
  = RenderToTexture_columns s W yC (xC + 1) (td ++ [pixel s W xC yC]).
Proof.
  intros Hx. rewrite RenderToTexture_columns_equation_1.
  destruct (Z_lt_dec xC W); [reflexivity | lia].
Qed.

Lemma rows_exit s W H yC (td : list (vec4 F)) :
  (H <= yC)%Z -> RenderToTexture_rows s W H yC td = (yC, td).
Proof.
  intros Hy. simp RenderToTexture_rows.
  destruct (Z_lt_dec yC H); [lia | reflexivity].
Qed.

Lemma rows_step s W H yC (td : list (vec4 F)) :
  (yC < H)%Z ->
  RenderToTexture_rows s W H yC td
  = RenderToTexture_rows s W H (yC + 1)
      (snd (RenderToTexture_columns s W yC 0 td)).
Proof.
  intros Hy. rewrite RenderToTexture_rows_equation_1.
  destruct (Z_lt_dec yC H); [reflexivity | lia].
Qed.

Lemma columns_run s W yC (n : nat) :
  forall xC (td : list (vec4 F)),
    Z.to_nat (W - xC) = n ->
    RenderToTexture_columns s W yC xC td
    = (Z.max xC W,
       td ++ map (fun k => pixel s W (xC + Z.of_nat k) yC) (seq 0 n)).
Proof.
  induction n as [|n IH]; intros xC td Hn.
  - rewrite columns_exit by lia. simpl. rewrite app_nil_r.
    f_equal; lia.
  - rewrite columns_step by lia. rewrite IH by lia.
    f_equal; [lia|]. rewrite <- app_assoc. f_equal.
    cbn [seq map app]. rewrite Z.add_0_r. f_equal.
    rewrite <- seq_shift, map_map. apply map_ext; intros k.
    f_equal; lia.
Qed.

Lemma columns_row s W yC (td : list (vec4 F)) :
  RenderToTexture_columns s W yC 0 td = (Z.max 0 W, td ++ grid_row s W yC).
Proof.
  rewrite (columns_run s W yC (Z.to_nat W)) by (f_equal; lia).
  reflexivity.
Qed.

Lemma rows_run s W H (n : nat) :
  forall yC (td : list (vec4 F)),
    (0 <= yC)%Z ->
    Z.to_nat (H - yC) = n ->
    RenderToTexture_rows s W H yC td
    = (Z.max yC H,
       td ++ flat_map (fun j => grid_row s W (Z.of_nat j)) (seq (Z.to_nat yC) n)).
Proof.
  induction n as [|n IH]; intros yC td Hy Hn.
  - rewrite rows_exit by lia. simpl. rewrite app_nil_r.
    f_equal; lia.
  - rewrite rows_step by lia. rewrite columns_row. cbn [snd].
    rewrite IH by lia. f_equal; [lia|].
    rewrite <- app_assoc. f_equal.
    cbn [seq flat_map]. rewrite Z2Nat.id by lia. f_equal.
    replace (Z.to_nat (yC + 1)) with (S (Z.to_nat yC)) by lia.
    reflexivity.
Qed.

Lemma RenderToTexture_grid s W H : RenderToTexture s W H = grid s W H.
Proof.
  unfold RenderToTexture.
  rewrite (rows_run s W H (Z.to_nat H)) by lia.
  reflexivity.
Qed.

(** A 3×2 render, row after row; every pixel is normalized by the width 3. *)
Example RenderToTexture_3x2 s :
  RenderToTexture s 3 2
  = [pixel s 3 0 0; pixel s 3 1 0; pixel s 3 2 0;
     pixel s 3 0 1; pixel s 3 1 1; pixel s 3 2 1].
Proof. rewrite RenderToTexture_grid. reflexivity. Qed.

Lemma length_grid_row s W yC : length (grid_row s W yC) = Z.to_nat W.
Proof. unfold grid_row. now rewrite length_map, length_seq. Qed.

Lemma length_flat_map_uniform {A B : Type} (f : A -> list B) (m : nat) (l : list A) :
  (forall a, length (f a) = m) -> length (flat_map f l) = (length l * m)%nat.
Proof.
  intros Hm. induction l as [|a l IH]; simpl; [reflexivity|].
  now rewrite length_app, Hm, IH.
Qed.

Lemma nth_error_flat_map_uniform {A B : Type} (f : A -> list B) (m : nat) :
  (forall a, length (f a) = m) ->
  forall (l : list A) (j i : nat) (a : A),
    (i < m)%nat -> nth_error l j = Some a ->
    nth_error (flat_map f l) (j * m + i) = nth_error (f a) i.
Proof.
  intros Hm l. induction l as [|b l IH]; intros j i a Hi Hj.
  - destruct j; discriminate.
  - destruct j as [|j]; simpl in Hj |- *.
    + injection Hj as ->. apply nth_error_app1. now rewrite Hm.
    + rewrite nth_error_app2 by (rewrite Hm; lia).
      rewrite Hm. replace (m + j * m + i - m)%nat with (j * m + i)%nat by lia.
      now apply IH.
Qed.

Lemma length_grid s W H : length (grid s W H) = (Z.to_nat H * Z.to_nat W)%nat.
Proof.
  unfold grid.
  rewrite (length_flat_map_uniform _ (Z.to_nat W)) by (intros; apply length_grid_row).
  now rewrite length_seq.
Qed.

Lemma nth_error_grid s W H (xc yc : Z) :
  (0 <= xc < W)%Z -> (0 <= yc < H)%Z ->
  nth_error (grid s W H) (Z.to_nat (yc * W + xc)) = Some (pixel s W xc yc).
Proof.
  intros Hx Hy. unfold grid.
  replace (Z.to_nat (yc * W + xc))
    with (Z.to_nat yc * Z.to_nat W + Z.to_nat xc)%nat by nia.
  rewrite (nth_error_flat_map_uniform _ (Z.to_nat W))
    with (a := Z.to_nat yc).
  - unfold grid_row. rewrite nth_error_map, nth_error_seq.
    destruct (Nat.ltb_spec (Z.to_nat xc) (Z.to_nat W)); [|lia].
    simpl. now rewrite !Z2Nat.id by lia.
  - intros; apply length_grid_row.
  - lia.
  - rewrite nth_error_seq.
    destruct (Nat.ltb_spec (Z.to_nat yc) (Z.to_nat H)); [|lia]. reflexivity.
Qed.

Lemma even_of_nat (n : nat) : Z.even (Z.of_nat n) = Nat.even n.
Proof.
  enough (Hboth : Z.even (Z.of_nat n) = Nat.even n
                  /\ Z.even (Z.of_nat (S n)) = Nat.even (S n)) by apply Hboth.
  induction n as [|n [IH0 IH1]]; split; try reflexivity; try assumption.
  rewrite Nat.even_succ_succ, <- IH0.
  replace (Z.of_nat (S (S n))) with (Z.succ (Z.succ (Z.of_nat n))) by lia.
  apply Z.even_succ_succ.
Qed.

Lemma rem2_even (n : nat) : (Z.rem (Z.of_nat n) 2 =? 0)%Z = Nat.even n.
Proof.
  rewrite Z.rem_mod_nonneg by lia.
  rewrite Zmod_even, even_of_nat.
  now destruct (Nat.even n).
Qed.

Lemma distances_step (fuel : nat) (iv : vec3 F) (dh : F) (hp : list (vec3 F)) :
  (dh <=? lit_5_5) = true ->
  calcH_distances (S fuel) iv dh hp
  = calcH_distances fuel iv (dh + of_int 1)
      (hp ++ [calculateP (calculateIvv iv dh) dh]).
Proof. intros Hle. simpl. now rewrite Hle. Qed.

Lemma distances_exit (fuel : nat) (iv : vec3 F) (dh : F) (hp : list (vec3 F)) :
  (dh <=? lit_5_5) = false -> calcH_distances (S fuel) iv dh hp = Some hp.
Proof. intros Hgt. simpl. now rewrite Hgt. Qed.

Lemma directions_step (fuel : nat) (i : Z) (hp hp' : list (vec3 F)) :
  (i < 9)%Z ->
  calcH_distances fuel (calculateIv i) lit_0_5 hp = Some hp' ->
  calcH_directions fuel i hp = calcH_directions fuel (i + 1) hp'.
Proof.
  intros Hi Hd. rewrite calcH_directions_equation_1.
  destruct (Z_lt_dec i 9); [|lia]. simpl. now rewrite Hd.
Qed.

Lemma directions_exit (fuel : nat) (i : Z) (hp : list (vec3 F)) :
  (9 <= i)%Z -> calcH_directions fuel i hp = Some hp.
Proof.
  intros Hi. rewrite calcH_directions_equation_1.
  destruct (Z_lt_dec i 9); [lia | reflexivity].
Qed.

Lemma increaseResolution_unfold s (increaseBy : Z) :
  increaseResolution s increaseBy
  = mkPoincareTexture (width s + increaseBy) (height s + increaseBy)
      (points s) (centres s) (hyperbolicPoints s) (poincarePoints s)
      (circles s)
      (Some (mkTexture (width s + increaseBy) (height s + increaseBy)
               (RenderToTexture s (width s + increaseBy) (height s + increaseBy)))).
Proof.
  unfold increaseResolution, create, set_height, set_width; cbn.
  do 2 f_equal. f_equal.
  rewrite !RenderToTexture_grid. reflexivity.
Qed.

Lemma countCircles_create s (w h : Z) (im : list (vec4 F)) (point : vec2 F) :
  countCircles (create s w h im) point = countCircles s point.
Proof. reflexivity. Qed.

(** The grid depends on the object through its circle set only. *)
Lemma grid_circles s s' W H : circles s = circles s' -> grid s W H = grid s' W H.
Proof.
  intros Hc. unfold grid, grid_row, pixel, manyCircles, countCircles.
  now rewrite Hc.
Qed.

(** ** The claims that hold for every arithmetic *)

(** C1. For every pixel [(xc, yc)] of a [W]×[H] render, the synthesizer maps
    it to [x = xc/W·2−1] and [y = yc/W·2−1], both divided by the width, and
    colours it by priority: [(0,0,0,1)] if [‖(x,y)‖ > 1]; else [(1,1,0,1)] if
    the number of circles whose center is within their radius of [(x,y)] is
    even; else [(0,0,1,1)].  The pixel is entry [yc·W + xc] of the grid
    (row-major), which has [W·H] entries. *)
Theorem C1_pixel_colour_row_major s W H (xc yc : Z) :
  (0 <= xc < W)%Z -> (0 <= yc < H)%Z ->
  let x := of_int xc / of_int W * of_int 2 - of_int 1 in
  let y := of_int yc / of_int W * of_int 2 - of_int 1 in
  let within (c : vec3 F) :=
    fsqrt (fpow (x - v3x c) 2 + fpow (y - v3y c) 2) <=? v3z c in
  let containing := length (filter within (circles s)) in
  nth_error (RenderToTexture s W H) (Z.to_nat (yc * W + xc))
  = Some (if fsqrt (fpow x 2 + fpow y 2) >? of_int 1
          then mkvec4 (of_int 0) (of_int 0) (of_int 0) (of_int 1)
          else if Nat.even containing
               then mkvec4 (of_int 1) (of_int 1) (of_int 0) (of_int 1)
               else mkvec4 (of_int 0) (of_int 0) (of_int 1) (of_int 1))
  /\ Z.of_nat (length (RenderToTexture s W H)) = (W * H)%Z.
Proof.
  intros Hx Hy x y within containing. split.
  - rewrite RenderToTexture_grid, nth_error_grid by assumption.
    f_equal. unfold pixel, manyCircles.
    rewrite countCircles_filter, rem2_even. reflexivity.
  - rewrite RenderToTexture_grid, length_grid. nia.
Qed.

(** C4. The disk projector maps each hyperboloid point [(x,y,z)] to
    [(x/(z+1), y/(z+1))]: [calcP] appends to [poincarePoints] exactly one
    disk point per element of [hyperbolicPoints], in the same order, and
    changes nothing else. *)
Theorem C4_calcP_projects_in_order s :
  poincarePoints (calcP s)
  = poincarePoints s
    ++ map (fun p => mkvec2 (v3x p / (v3z p + of_int 1))
                            (v3y p / (v3z p + of_int 1)))
           (hyperbolicPoints s)
  /\ length (poincarePoints (calcP s))
     = (length (poincarePoints s) + length (hyperbolicPoints s))%nat
  /\ (forall (k : nat) (p : vec3 F),
        nth_error (hyperbolicPoints s) k = Some p ->
        nth_error (poincarePoints (calcP s)) (length (poincarePoints s) + k)
        = Some (mkvec2 (v3x p / (v3z p + of_int 1))
                       (v3y p / (v3z p + of_int 1))))
  /\ calcP s = set_poincarePoints s (poincarePoints (calcP s)).
Proof.
  assert (Hpp : poincarePoints (calcP s)
                = poincarePoints s ++ map project (hyperbolicPoints s)).
  { unfold calcP; cbn. apply calcP_loop_map. }
  repeat split.
  - exact Hpp.
  - now rewrite Hpp, length_app, length_map.
  - intros k p Hk. rewrite Hpp, nth_error_app2 by lia.
    replace (length (poincarePoints s) + k - length (poincarePoints s))%nat
      with k by lia.
    now rewrite nth_error_map, Hk.
Qed.

(** C6. For every disk point [q], with [r = ‖q‖], the geodesic builder
    computes [g = (1/r − r)/2] and stores the circle of center
    [q + normalize(q)·g] and third component [g] itself, no absolute value
    taken: [calcC] appends to [circles] exactly one circle per element of
    [poincarePoints], in the same order, and changes nothing else. *)
Theorem C6_calcC_builds_in_order s :
  let gap (q : vec2 F) :=
    let r := fsqrt (fpow (v2x q) 2 + fpow (v2y q) 2) in
    (of_int 1 / r - r) / of_int 2 in
  let circle (q : vec2 F) :=
    let center := vec2_add q (vec2_scale (normalize q) (gap q)) in
    mkvec3 (v2x center) (v2y center) (gap q) in
  circles (calcC s) = circles s ++ map circle (poincarePoints s)
  /\ length (circles (calcC s))
     = (length (circles s) + length (poincarePoints s))%nat
  /\ (forall (k : nat) (q : vec2 F),
        nth_error (poincarePoints s) k = Some q ->
        nth_error (circles (calcC s)) (length (circles s) + k) = Some (circle q))
  /\ calcC s = set_circles s (circles (calcC s)).
Proof.
  intros gap circle.
  assert (Hcs : circles (calcC s) = circles s ++ map circle (poincarePoints s)).
  { unfold calcC; cbn. apply calcC_loop_map. }
  repeat split.
  - exact Hcs.
  - now rewrite Hcs, length_app, length_map.
  - intros k q Hk. rewrite Hcs, nth_error_app2 by lia.
    replace (length (circles s) + k - length (circles s))%nat with k by lia.
    now rewrite nth_error_map, Hk.
Qed.


(** C10, as the code has it.  If the width or the height is zero or negative,
    [RenderToTexture] returns an empty grid, of length 0.  With a width that is
    not positive the inner loop executes zero iterations in every row; with a
    height that is not positive the outer loop executes zero iterations; with
    a height that is positive the outer loop runs once per row, whatever the
    width.  [increaseResolution] applies its amount with no clamp, and then
    holds the empty grid. *)
Theorem C10_nonpositive_dimension_empty_grid s W H :
  (W <= 0 \/ H <= 0)%Z ->
  RenderToTexture s W H = []
  /\ length (RenderToTexture s W H) = 0%nat
  /\ ((W <= 0)%Z -> forall yC (td : list (vec4 F)),
        RenderToTexture_columns s W yC 0 td = (0%Z, td))
  /\ ((H <= 0)%Z -> RenderToTexture_rows s W H 0 [] = (0%Z, []))
  /\ ((0 <= H)%Z -> fst (RenderToTexture_rows s W H 0 []) = H)
  /\ (forall increaseBy : Z,
        (width s + increaseBy)%Z = W -> (height s + increaseBy)%Z = H ->
        width (increaseResolution s increaseBy) = W
        /\ height (increaseResolution s increaseBy) = H
        /\ texture (increaseResolution s increaseBy) = Some (mkTexture W H [])).
Proof.
  intros Hdim.
  assert (Hempty : RenderToTexture s W H = []).
  { rewrite RenderToTexture_grid. unfold grid, grid_row.
    destruct Hdim as [HW | HH].
    - replace (Z.to_nat W) with 0%nat by lia. simpl.
      induction (seq 0 (Z.to_nat H)) as [|j l IH]; simpl; auto.
    - now replace (Z.to_nat H) with 0%nat by lia. }
  repeat split.
  - exact Hempty.
  - now rewrite Hempty.
  - intros HW yC td. now apply columns_exit.
  - intros HH. now apply rows_exit.
  - intros HH. rewrite (rows_run s W H (Z.to_nat H)) by lia. cbn [fst]. lia.
  - rewrite increaseResolution_unfold. cbn. assumption.
  - rewrite increaseResolution_unfold. cbn. assumption.
  - rewrite increaseResolution_unfold. cbn.
    intros. subst W H. now rewrite Hempty.
Qed.

End PipelineFacts.

(** ** The pipeline over the real numbers *)

Section RealArithmetic.

Local Open Scope R_scope.

Lemma Rleb_true (a b : R) : a <= b -> Rleb a b = true.
Proof. intros Hab. unfold Rleb. destruct (Rle_dec a b); [reflexivity | contradiction]. Qed.

Lemma Rleb_false (a b : R) : b < a -> Rleb a b = false.
Proof. intros Hab. unfold Rleb. destruct (Rle_dec a b); [lra | reflexivity]. Qed.

Lemma Rgtb_false (a b : R) : a <= b -> Rgtb a b = false.
Proof. intros Hab. unfold Rgtb. destruct (Rgt_dec a b); [lra | reflexivity]. Qed.

Lemma cosh2_sinh2 (d : R) : cosh d * cosh d - sinh d * sinh d = 1.
Proof.
  unfold cosh, sinh.
  assert (He : exp d * exp (- d) = 1) by (rewrite <- exp_plus, Rplus_opp_r; apply exp_0).
  nra.
Qed.

Lemma cosh_ge_1 (d : R) : 1 <= cosh d.
Proof.
  unfold cosh.
  assert (He : exp d * exp (- d) = 1) by (rewrite <- exp_plus, Rplus_opp_r; apply exp_0).
  pose proof (exp_pos d) as Hp. pose proof (exp_pos (- d)) as Hn.
  set (a := exp d) in *. set (b := exp (- d)) in *.
  pose proof (Rle_0_sqr (a - b)) as Hsq. unfold Rsqr in Hsq.
  destruct (Rle_lt_dec 2 (a + b)) as [Hge | Hlt]; [lra | exfalso].
  assert (Hlt2 : (a + b) * (a + b) < 2 * 2) by (apply Rmult_le_0_lt_compat; lra).
  lra.
Qed.

Lemma sinh_pos (d : R) : 0 < d -> 0 < sinh d.
Proof. intros Hd. rewrite <- sinh_0. now apply sinh_lt. Qed.

Lemma cosh_le (a b : R) : 0 <= a <= b -> cosh a <= cosh b.
Proof.
  intros [Ha Hab].
  assert (Hsa : 0 <= sinh a).
  { destruct Ha as [Ha | <-]; [left; now apply sinh_pos | rewrite sinh_0; lra]. }
  assert (Hsab : sinh a <= sinh b).
  { destruct Hab as [Hab | <-]; [left; now apply sinh_lt | lra]. }
  pose proof (cosh2_sinh2 a). pose proof (cosh2_sinh2 b).
  pose proof (cosh_ge_1 a). pose proof (cosh_ge_1 b).
  nra.
Qed.

Lemma cosh_half_gt_1 : 1 < cosh (1 / 2).
Proof.
  pose proof (cosh2_sinh2 (1 / 2)) as Hcs.
  pose proof (cosh_ge_1 (1 / 2)).
  assert (0 < sinh (1 / 2)) by (apply sinh_pos; lra).
  nra.
Qed.

Lemma sinh_half_lower : 5 / 12 < sinh (1 / 2).
Proof.
  unfold sinh.
  assert (He : exp (1 / 2) * exp (- (1 / 2)) = 1)
    by (rewrite <- exp_plus, Rplus_opp_r; apply exp_0).
  assert (Hlo : 1 + 1 / 2 < exp (1 / 2)) by (apply exp_ineq1; lra).
  pose proof (exp_pos (- (1 / 2))) as Hn.
  set (a := exp (1 / 2)) in *. set (b := exp (- (1 / 2))) in *.
  assert (Hb : b * (3 / 2) < 1) by nra.
  lra.
Qed.

(** *** The lattice computed by [calcH] *)

Lemma calculateP_lattice (i : Z) (d : R) :
  calculateP (calculateIvv (calculateIv i) d) d = LatticeSpec.lattice_point i d.
Proof.
  unfold calculateP, calculateIvv, calculateIv, vec3_add, vec3_scale, apex.
  unfold LatticeSpec.lattice_point, LatticeSpec.point_of, LatticeSpec.ivv_of,
    LatticeSpec.direction, LatticeSpec.degrees.
  cbn. rewrite mult_IZR. reflexivity.
Qed.

Lemma calcH_distances_R (fuel : nat) (iv : vec3 R) (hp : list (vec3 R)) :
  (7 <= fuel)%nat ->
  calcH_distances fuel iv (1 / 2) hp
  = Some (hp ++ map (fun d => calculateP (calculateIvv iv d) d)
                    LatticeSpec.distances).
Proof.
  intros Hfuel. do 7 (destruct fuel as [|fuel]; [lia|]). clear Hfuel.
  do 6 (rewrite distances_step by (apply Rleb_true; cbn; lra)).
  rewrite distances_exit by (apply Rleb_false; cbn; lra).
  rewrite <- !app_assoc. cbn.
  replace (1 / 2 + 1) with (3 / 2) by lra.
  replace (3 / 2 + 1) with (5 / 2) by lra.
  replace (5 / 2 + 1) with (7 / 2) by lra.
  replace (7 / 2 + 1) with (9 / 2) by lra.
  replace (9 / 2 + 1) with (11 / 2) by lra.
  reflexivity.
Qed.

Lemma calcH_directions_run (fuel : nat) (n : nat) :
  (7 <= fuel)%nat ->
  forall (i : Z) (hp : list (vec3 R)),
    (i + Z.of_nat n = 9)%Z ->
    calcH_directions fuel i hp
    = Some (hp ++ flat_map
                    (fun k => map (LatticeSpec.lattice_point k) LatticeSpec.distances)
                    (map (fun k => (i + Z.of_nat k)%Z) (seq 0 n))).
Proof.
  intros Hfuel. induction n as [|n IH]; intros i hp Hi.
  - rewrite directions_exit by lia. simpl. now rewrite app_nil_r.
  - rewrite directions_step
      with (hp' := hp ++ map (LatticeSpec.lattice_point i) LatticeSpec.distances)
      by (try lia; cbn [lit_0_5 R_ops]; rewrite calcH_distances_R by assumption;
          do 2 f_equal; apply map_ext; intros d; apply calculateP_lattice).
    rewrite IH by lia. f_equal. rewrite <- app_assoc. f_equal.
    cbn [seq map flat_map]. rewrite Z.add_0_r. f_equal.
    rewrite <- seq_shift, map_map. f_equal. apply map_ext; intros k. lia.
Qed.

Lemma calcH_directions_R (fuel : nat) (hp : list (vec3 R)) :
  (7 <= fuel)%nat ->
  calcH_directions fuel 0 hp = Some (hp ++ LatticeSpec.lattice).
Proof.
  intros Hfuel. now rewrite (calcH_directions_run fuel 9 Hfuel) by reflexivity.
Qed.

Lemma calcH_R (fuel : nat) (s : PoincareTexture R) :
  (7 <= fuel)%nat ->
  calcH fuel s
  = Some (set_hyperbolicPoints s (hyperbolicPoints s ++ LatticeSpec.lattice)).
Proof.
  intros Hfuel. unfold calcH. now rewrite calcH_directions_R by assumption.
Qed.

(** The object the constructor has after [math()]. *)
Lemma math_member_init (fuel : nat) (w h : Z) :
  (7 <= fuel)%nat ->
  math fuel (member_init w h)
  = Some (mkPoincareTexture w h [] [] LatticeSpec.lattice
            (map project LatticeSpec.lattice)
            (map circleOf (map project LatticeSpec.lattice))
            None).
Proof.
  intros Hfuel. unfold math. rewrite calcH_R by assumption.
  cbn [option_map member_init hyperbolicPoints app].
  unfold calcC, calcP, set_circles, set_poincarePoints, set_hyperbolicPoints.
  cbn [width height points centres hyperbolicPoints poincarePoints circles texture].
  now rewrite calcP_loop_map, calcC_loop_map.
Qed.

(** With fuel 6 the inner loop runs out before its guard fails. *)
Lemma calcH_distances_short (iv : vec3 R) (hp : list (vec3 R)) :
  calcH_distances 6 iv (1 / 2) hp = None.
Proof.
  do 6 (rewrite distances_step by (apply Rleb_true; cbn; lra)).
  reflexivity.
Qed.

Lemma in_lattice (p : vec3 R) :
  In p LatticeSpec.lattice ->
  exists (i : Z) (d : R),
    In i LatticeSpec.directions /\ In d LatticeSpec.distances
    /\ p = LatticeSpec.lattice_point i d.
Proof.
  unfold LatticeSpec.lattice. rewrite in_flat_map.
  intros (i & Hi & Hp). apply in_map_iff in Hp as (d & <- & Hd).
  now exists i, d.
Qed.

Lemma distance_bounds (d : R) : In d LatticeSpec.distances -> 1 / 2 <= d.
Proof. cbn. intros H; repeat destruct H as [<- | H]; try lra; contradiction. Qed.

Lemma lattice_point_coords (i : Z) (d : R) :
  let theta := LatticeSpec.degrees (IZR i * 40) in
  let p := LatticeSpec.lattice_point i d in
  v3x p = cos theta * (cosh d * sinh d)
  /\ v3y p = sin theta * (cosh d * sinh d)
  /\ v3z p = cosh d + sinh d * sinh d.
Proof. cbn. repeat split; ring. Qed.

Lemma cos2_sin2 (a : R) : cos a * cos a + sin a * sin a = 1.
Proof. pose proof (sin2_cos2 a) as H. unfold Rsqr in H. lra. Qed.

(** The defect of a lattice point from the hyperboloid [x²+y² = z²−1]. *)
Lemma lattice_point_defect (i : Z) (d : R) :
  let p := LatticeSpec.lattice_point i d in
  v3x p ^ 2 + v3y p ^ 2 = v3z p ^ 2 - 1 - 2 * cosh d * sinh d ^ 2.
Proof.
  intros p. subst p. destruct (lattice_point_coords i d) as (-> & -> & ->).
  pose proof (cos2_sin2 (LatticeSpec.degrees (IZR i * 40))) as Hcs.
  pose proof (cosh2_sinh2 d) as Hh.
  set (C := cos _) in *. set (S := sin _) in *.
  set (c := cosh d) in *. set (sh := sinh d) in *.
  replace ((C * (c * sh)) ^ 2 + (S * (c * sh)) ^ 2)
    with ((C * C + S * S) * (c * c) * sh ^ 2) by ring.
  rewrite Hcs. nra.
Qed.

(** A projected lattice point is the direction scaled by [sinh d/(1+cosh d)],
    which lies strictly between 0 and 1. *)
Lemma project_lattice_point (i : Z) (d : R) :
  0 < d ->
  exists t C S : R,
    0 < t < 1 /\ C * C + S * S = 1
    /\ project (LatticeSpec.lattice_point i d) = mkvec2 (C * t) (S * t).
Proof.
  intros Hd.
  exists (sinh d / (1 + cosh d)),
         (cos (LatticeSpec.degrees (IZR i * 40))),
         (sin (LatticeSpec.degrees (IZR i * 40))).
  pose proof (cosh2_sinh2 d) as Hh. pose proof (cosh_ge_1 d) as Hc.
  pose proof (sinh_pos d Hd) as Hs.
  split; [|split].
  - split.
    + apply Rdiv_lt_0_compat; lra.
    + apply (Rmult_lt_reg_r (1 + cosh d)); [lra|].
      replace (sinh d / (1 + cosh d) * (1 + cosh d)) with (sinh d) by (field; lra).
      nra.
  - apply cos2_sin2.
  - unfold project. destruct (lattice_point_coords i d) as (-> & -> & ->).
    cbn [fdiv fadd of_int R_ops].
    replace (cosh d + sinh d * sinh d + 1) with (cosh d * (1 + cosh d)) by lra.
    f_equal; field; lra.
Qed.

Lemma norm_scaled_direction (t C S : R) :
  0 <= t -> C * C + S * S = 1 -> sqrt ((C * t) ^ 2 + (S * t) ^ 2) = t.
Proof.
  intros Ht HCS.
  replace ((C * t) ^ 2 + (S * t) ^ 2) with ((C * C + S * S) * t ^ 2) by ring.
  rewrite HCS, Rmult_1_l. now apply sqrt_pow2.
Qed.

(** *** Circles orthogonal to the unit circle *)

Lemma circleOf_orthogonal (q : vec2 R) :
  0 < v2x q * v2x q + v2y q * v2y q ->
  let c := circleOf q in
  v3x c ^ 2 + v3y c ^ 2 = 1 + v3z c ^ 2.
Proof.
  destruct q as [x y]. cbn [v2x v2y]. intros Hpos.
  unfold circleOf, calculateR, normalize, length2, vec2_add, vec2_scale.
  cbn [v2x v2y v3x v3y v3z fadd fsub fmul fdiv fsqrt fpow of_int R_ops].
  replace (x ^ 2 + y ^ 2) with (x * x + y * y) by ring.
  set (L := sqrt (x * x + y * y)).
  assert (HL : L * L = x * x + y * y) by (apply sqrt_sqrt; lra).
  assert (HLpos : 0 < L) by (apply sqrt_lt_R0; exact Hpos).
  clearbody L.
  assert (Hu : L * (1 / L) = 1) by (field; lra).
  set (u := 1 / L) in *. clearbody u.
  replace ((x + x * u * ((u - L) / 2)) ^ 2 + (y + y * u * ((u - L) / 2)) ^ 2)
    with ((x * x + y * y) * (1 + u * ((u - L) / 2)) ^ 2) by ring.
  rewrite <- HL.
  replace (L * L * (1 + u * ((u - L) / 2)) ^ 2)
    with ((L + (L * u) * ((u - L) / 2)) ^ 2) by ring.
  rewrite Hu.
  replace ((L + 1 * ((u - L) / 2)) ^ 2) with (L * u + ((u - L) / 2) ^ 2) by field.
  rewrite Hu. reflexivity.
Qed.

Lemma radius_below_center_distance (g : R) : g < sqrt (1 + g ^ 2).
Proof.
  destruct (Rlt_le_dec g 0) as [Hneg | Hpos].
  - pose proof (sqrt_pos (1 + g ^ 2)). lra.
  - rewrite <- (sqrt_pow2 g) at 1 by assumption.
    apply sqrt_lt_1; nra.
Qed.

(** The circles built from the lattice: each comes from a disk point
    [(C·t, S·t)] with [0 < t < 1] and is orthogonal to the unit circle. *)
Lemma in_lattice_circles (c : vec3 R) :
  In c (map circleOf (map project LatticeSpec.lattice)) ->
  v3x c ^ 2 + v3y c ^ 2 = 1 + v3z c ^ 2.
Proof.
  rewrite map_map, in_map_iff. intros (p & <- & Hp).
  apply in_lattice in Hp as (i & d & _ & Hd & ->).
  apply distance_bounds in Hd.
  destruct (project_lattice_point i d) as (t & C & S & Ht & HCS & ->); [lra|].
  apply circleOf_orthogonal. cbn [v2x v2y].
  replace (C * t * (C * t) + S * t * (S * t)) with ((C * C + S * S) * (t * t)) by ring.
  rewrite HCS. nra.
Qed.

Lemma origin_outside_circle (c : vec3 R) :
  v3x c ^ 2 + v3y c ^ 2 = 1 + v3z c ^ 2 ->
  contains (mkvec2 0 0) c = false.
Proof.
  intros Horth. unfold contains, calculateDistance.
  cbn [v2x v2y fle fsub fadd fsqrt fpow R_ops].
  apply Rleb_false.
  replace ((0 - v3x c) ^ 2 + (0 - v3y c) ^ 2) with (1 + v3z c ^ 2)
    by (rewrite <- Horth; ring).
  apply radius_below_center_distance.
Qed.

Lemma filter_none {A : Type} (f : A -> bool) (l : list A) :
  (forall a, In a l -> f a = false) -> filter f l = [].
Proof.
  induction l as [|a l IH]; intros Hf; simpl; [reflexivity|].
  rewrite (Hf a) by now left. apply IH. intros b Hb. apply Hf. now right.
Qed.


Lemma nth_error_directions (i : Z) :
  (0 <= i < 9)%Z -> nth_error LatticeSpec.directions (Z.to_nat i) = Some i.
Proof.
  intros Hi.
  assert (Hcases : (i = 0 \/ i = 1 \/ i = 2 \/ i = 3 \/ i = 4 \/ i = 5
                    \/ i = 6 \/ i = 7 \/ i = 8)%Z) by lia.
  repeat destruct Hcases as [-> | Hcases]; try subst i; reflexivity.
Qed.

Lemma nth_error_distances (j : Z) :
  (0 <= j < 6)%Z ->
  nth_error LatticeSpec.distances (Z.to_nat j) = Some (1 / 2 + IZR j).
Proof.
  intros Hj.
  assert (Hcases : (j = 0 \/ j = 1 \/ j = 2 \/ j = 3 \/ j = 4 \/ j = 5)%Z) by lia.
  repeat destruct Hcases as [-> | Hcases]; try subst j;
    match goal with
    | |- context [Z.to_nat ?k] =>
        let n := eval vm_compute in (Z.to_nat k) in change (Z.to_nat k) with n
    end;
    cbn [nth_error LatticeSpec.distances]; f_equal; lra.
Qed.

(** ** The claims about the lattice and its circles *)

(** C2. The lattice generator produces exactly 54 hyperboloid points,
    direction-major and distance-minor: for each [i] in 0..8 with direction
    [iv = (cos(i·40°), sin(i·40°), 0)] and each distance [d] in
    0.5, 1.5, ..., 5.5, the point [(0,0,1)·cosh(d) + ivv·sinh(d)] with
    [ivv = (0,0,1)·sinh(d) + iv·cosh(d)].  [calcH] returns, and appends these
    points, in this order, to [hyperbolicPoints] (which the constructor
    leaves empty before it). *)
Theorem C2_lattice_direction_major (fuel : nat) (s : PoincareTexture R) :
  (7 <= fuel)%nat ->
  calcH fuel s
  = Some (set_hyperbolicPoints s (hyperbolicPoints s ++ LatticeSpec.lattice))
  /\ length LatticeSpec.lattice = 54%nat
  /\ (forall i j : Z,
        (0 <= i < 9)%Z -> (0 <= j < 6)%Z ->
        nth_error LatticeSpec.lattice (Z.to_nat (6 * i + j))
        = Some (LatticeSpec.point_of
                  (LatticeSpec.ivv_of
                     (mkvec3 (cos (LatticeSpec.degrees (IZR i * 40)))
                             (sin (LatticeSpec.degrees (IZR i * 40))) 0)
                     (1 / 2 + IZR j))
                  (1 / 2 + IZR j))).
Proof.
  intros Hfuel. split; [now apply calcH_R | split; [reflexivity|]].
  intros i j Hi Hj.
  replace (Z.to_nat (6 * i + j)) with (Z.to_nat i * 6 + Z.to_nat j)%nat by lia.
  unfold LatticeSpec.lattice.
  rewrite (nth_error_flat_map_uniform _ 6%nat) with (a := i).
  - rewrite nth_error_map, nth_error_distances by assumption. reflexivity.
  - intros a. reflexivity.
  - lia.
  - now apply nth_error_directions.
Qed.

(** C3, as the code has it.  Every point the lattice generator produces has
    [z ≥ cosh(0.5) > 1].  It does not lie on the hyperboloid: with [d] the
    distance it was generated at, [x²+y² = z² − 1 − 2·cosh(d)·sinh²(d)], so
    that [x²+y² < z²−1] strictly. *)
Theorem C3_lattice_points_height_and_defect (fuel : nat) (w h : Z) :
  (7 <= fuel)%nat ->
  exists s : PoincareTexture R,
    calcH fuel (member_init w h) = Some s
    /\ length (hyperbolicPoints s) = 54%nat
    /\ forall p : vec3 R,
         In p (hyperbolicPoints s) ->
         cosh (1 / 2) <= v3z p
         /\ 1 < cosh (1 / 2)
         /\ v3x p ^ 2 + v3y p ^ 2 < v3z p ^ 2 - 1
         /\ exists d : R,
              In d LatticeSpec.distances
              /\ v3x p ^ 2 + v3y p ^ 2
                 = v3z p ^ 2 - 1 - 2 * cosh d * sinh d ^ 2.
Proof.
  intros Hfuel. eexists. split; [now apply calcH_R | split; [reflexivity|]].
  cbn [set_hyperbolicPoints hyperbolicPoints member_init app].
  intros p Hp. apply in_lattice in Hp as (i & d & _ & Hd & ->).
  pose proof (distance_bounds d Hd) as Hlow.
  pose proof (lattice_point_defect i d) as Hdefect. cbv zeta in Hdefect.
  assert (Hs : 0 < sinh d) by (apply sinh_pos; lra).
  pose proof (cosh_ge_1 d) as Hc.
  repeat split.
  - destruct (lattice_point_coords i d) as (_ & _ & ->).
    assert (cosh (1 / 2) <= cosh d) by (apply cosh_le; lra). nra.
  - exact cosh_half_gt_1.
  - rewrite Hdefect. assert (0 < cosh d * sinh d ^ 2) by (apply Rmult_lt_0_compat; nra).
    lra.
  - exists d. split; assumption.
Qed.

(** C5. Every disk point obtained by projecting a point of the lattice has
    Euclidean norm strictly below 1. *)
Theorem C5_disk_points_in_open_disk (fuel : nat) (w h : Z) :
  (7 <= fuel)%nat ->
  exists s : PoincareTexture R,
    math fuel (member_init w h) = Some s
    /\ poincarePoints s
       = map (fun p => mkvec2 (v3x p / (v3z p + 1)) (v3y p / (v3z p + 1)))
             (hyperbolicPoints s)
    /\ length (poincarePoints s) = 54%nat
    /\ forall q : vec2 R,
         In q (poincarePoints s) -> sqrt (v2x q ^ 2 + v2y q ^ 2) < 1.
Proof.
  intros Hfuel. eexists. split; [now apply math_member_init|].
  cbn [poincarePoints hyperbolicPoints].
  split; [reflexivity | split; [reflexivity|]].
  intros q Hq. apply in_map_iff in Hq as (p & <- & Hp).
  apply in_lattice in Hp as (i & d & _ & Hd & ->).
  apply distance_bounds in Hd.
  destruct (project_lattice_point i d) as (t & C & S & Ht & HCS & ->); [lra|].
  cbn [v2x v2y]. rewrite norm_scaled_direction by (assumption || lra). lra.
Qed.

(** C7. Every circle the geodesic builder constructs from a disk point of
    the lattice is orthogonal to the unit circle: [‖center‖² = 1 + radius²]. *)
Theorem C7_circles_orthogonal_to_unit_circle (fuel : nat) (w h : Z) :
  (7 <= fuel)%nat ->
  exists s : PoincareTexture R,
    math fuel (member_init w h) = Some s
    /\ length (circles s) = 54%nat
    /\ forall c : vec3 R,
         In c (circles s) -> v3x c ^ 2 + v3y c ^ 2 = 1 + v3z c ^ 2.
Proof.
  intros Hfuel. eexists. split; [now apply math_member_init|].
  cbn [circles]. split; [reflexivity|].
  exact in_lattice_circles.
Qed.

(** C8. In a 300×300 generation the pixel (150,150) has normalized
    coordinate (0,0); the origin is inside the unit disk and in none of the
    54 circles (count 0, even), so the pixel is coloured (1,1,0,1). *)
Theorem C8_center_pixel_is_yellow (fuel : nat) :
  (7 <= fuel)%nat ->
  exists (s : PoincareTexture R) (im : list (vec4 R)),
    construct fuel 300 300 = Some s
    /\ texture s = Some (mkTexture 300 300 im)
    /\ normalized 150 300 = 0
    /\ sqrt (0 ^ 2 + 0 ^ 2) <= 1
    /\ length (circles s) = 54%nat
    /\ countCircles s (mkvec2 0 0) = 0%Z
    /\ nth_error im (Z.to_nat (150 * 300 + 150)) = Some (mkvec4 1 1 0 1).
Proof.
  intros Hfuel. unfold construct.
  rewrite math_member_init by assumption. cbn [option_map].
  set (s := mkPoincareTexture _ _ _ _ _ _ _ _).
  assert (Hnorm : normalized (F := R) 150 300 = 0).
  { unfold normalized. cbn [fdiv fsub fmul of_int R_ops]. lra. }
  assert (Hsqrt : sqrt (0 ^ 2 + 0 ^ 2) = 0).
  { replace (0 ^ 2 + 0 ^ 2) with 0 by ring. apply sqrt_0. }
  assert (Hcount : countCircles s (mkvec2 0 0) = 0%Z).
  { rewrite countCircles_filter, filter_none; [reflexivity|].
    intros c Hc. apply origin_outside_circle, in_lattice_circles. exact Hc. }
  exists (create s 300 300 (RenderToTexture s 300 300)), (RenderToTexture s 300 300).
  split; [reflexivity|]. split; [reflexivity|].
  split; [exact Hnorm|]. split; [rewrite Hsqrt; lra|].
  split; [reflexivity|].
  split; [rewrite countCircles_create; exact Hcount|].
  rewrite RenderToTexture_grid, nth_error_grid by lia.
  f_equal. unfold pixel, manyCircles. rewrite Hnorm, Hcount.
  cbn [fgt fsqrt fadd fpow of_int R_ops].
  rewrite Rgtb_false by (rewrite Hsqrt; lra).
  reflexivity.
Qed.

End RealArithmetic.

(** ** Where the code departs from the specification, and instances *)

(** C3 fails as stated: the first point [calcH] produces, of direction 0 at
    distance 0.5, misses the hyperboloid [x²+y² = z²−1] by more than 1/4. *)
Lemma C3_hyperboloid_constraint_fails :
  exists (s : PoincareTexture R) (p : vec3 R),
    calcH 7 (member_init 300 300) = Some s
    /\ nth_error (hyperbolicPoints s) 0 = Some p
    /\ (1 / 4 < (v3z p ^ 2 - 1) - (v3x p ^ 2 + v3y p ^ 2))%R.
Proof.
  eexists. eexists. split; [apply calcH_R; lia | split; [reflexivity|]].
  pose proof (lattice_point_defect 0 (1 / 2)) as Hdefect. cbv zeta in Hdefect.
  rewrite Hdefect.
  pose proof sinh_half_lower as Hs. pose proof (cosh_ge_1 (1 / 2)) as Hc.
  assert (Hsq : (25 / 144 < sinh (1 / 2) ^ 2)%R) by nra.
  nra.
Qed.

(** C10 fails as stated: with width 0 and height 1 the width is not
    positive, yet the outer loop executes one iteration, leaving its counter
    at 1. *)
Lemma C10_outer_loop_runs_at_zero_width :
  (0 <= 0 \/ 1 <= 0)%Z
  /\ RenderToTexture_rows (member_init (F := R) 0 1) 0 1 0 [] = (1%Z, [])
  /\ fst (RenderToTexture_rows (member_init (F := R) 0 1) 0 1 0 []) <> 0%Z.
Proof.
  assert (Hrun : RenderToTexture_rows (member_init (F := R) 0 1) 0 1 0 []
                 = (1%Z, [])).
  { rewrite rows_step by lia. rewrite columns_exit by lia.
    now rewrite rows_exit by lia. }
  split; [lia | split; [exact Hrun|]].
  rewrite Hrun. discriminate.
Qed.

(** C1 at the pixel (1,1) of a 2×2 render of an object without circles. *)
Lemma C1_witness :
  (0 <= 1 < 2)%Z /\ (0 <= 1 < 2)%Z
  /\ nth_error (RenderToTexture (member_init (F := R) 2 2) 2 2) 3
     = Some (if Rgtb (sqrt ((1 / 2 * 2 - 1) ^ 2 + (1 / 2 * 2 - 1) ^ 2))%R 1%R
             then mkvec4 0%R 0%R 0%R 1%R else mkvec4 1%R 1%R 0%R 1%R)
  /\ Z.of_nat (length (RenderToTexture (member_init (F := R) 2 2) 2 2)) = 4%Z.
Proof.
  split; [lia | split; [lia|]].
  exact (C1_pixel_colour_row_major (member_init 2 2) 2 2 1 1
           ltac:(lia) ltac:(lia)).
Defined.

(** C2 with fuel 7 on the object the constructor starts from; the point of
    direction 1 at distance 2.5 is entry 8. *)
Lemma C2_witness :
  (7 <= 7)%nat /\ (0 <= 1 < 9)%Z /\ (0 <= 2 < 6)%Z
  /\ calcH 7 (member_init (F := R) 300 300)
     = Some (set_hyperbolicPoints (member_init 300 300) LatticeSpec.lattice)
  /\ length LatticeSpec.lattice = 54%nat
  /\ nth_error LatticeSpec.lattice 8
     = Some (LatticeSpec.point_of
               (LatticeSpec.ivv_of
                  (mkvec3 (cos (LatticeSpec.degrees (1 * 40)%R))
                          (sin (LatticeSpec.degrees (1 * 40)%R)) 0%R)
                  (1 / 2 + 2)%R)
               (1 / 2 + 2)%R).
Proof.
  split; [lia | split; [lia | split; [lia|]]].
  destruct (C2_lattice_direction_major 7 (member_init 300 300) (le_n 7))
    as (Hrun & Hlen & Hnth).
  split; [exact Hrun | split; [exact Hlen|]].
  exact (Hnth 1%Z 2%Z ltac:(lia) ltac:(lia)).
Defined.

(** C3, as the code has it, with fuel 7 for a 300×300 texture. *)
Lemma C3_witness :
  (7 <= 7)%nat
  /\ exists s : PoincareTexture R,
       calcH 7 (member_init 300 300) = Some s
       /\ length (hyperbolicPoints s) = 54%nat
       /\ forall p : vec3 R,
            In p (hyperbolicPoints s) ->
            (cosh (1 / 2) <= v3z p
             /\ 1 < cosh (1 / 2)
             /\ v3x p ^ 2 + v3y p ^ 2 < v3z p ^ 2 - 1
             /\ exists d : R,
                  In d LatticeSpec.distances
                  /\ v3x p ^ 2 + v3y p ^ 2
                     = v3z p ^ 2 - 1 - 2 * cosh d * sinh d ^ 2)%R.
Proof.
  split; [lia|].
  exact (C3_lattice_points_height_and_defect 7 300 300 (le_n 7)).
Defined.

(** C4 on an object holding the apex as its only hyperboloid point. *)
Lemma C4_witness :
  nth_error
    (hyperbolicPoints
       (mkPoincareTexture 300 300 [] [] [mkvec3 0%R 0%R 1%R] [] [] None)) 0
  = Some (mkvec3 0%R 0%R 1%R)
  /\ poincarePoints
       (calcP (mkPoincareTexture 300 300 [] [] [mkvec3 0%R 0%R 1%R] [] [] None))
     = [mkvec2 (0 / (1 + 1))%R (0 / (1 + 1))%R].
Proof.
  split; [reflexivity|].
  exact (proj1 (C4_calcP_projects_in_order
                  (mkPoincareTexture 300 300 [] [] [mkvec3 0%R 0%R 1%R] [] [] None))).
Defined.

(** C5 with fuel 7 for a 300×300 texture. *)
Lemma C5_witness :
  (7 <= 7)%nat
  /\ exists s : PoincareTexture R,
       math 7 (member_init 300 300) = Some s
       /\ poincarePoints s
          = map (fun p => mkvec2 (v3x p / (v3z p + 1)) (v3y p / (v3z p + 1)))%R
                (hyperbolicPoints s)
       /\ length (poincarePoints s) = 54%nat
       /\ forall q : vec2 R,
            In q (poincarePoints s) -> (sqrt (v2x q ^ 2 + v2y q ^ 2) < 1)%R.
Proof.
  split; [lia|].
  exact (C5_disk_points_in_open_disk 7 300 300 (le_n 7)).
Defined.

(** C6 on an object holding one disk point. *)
Lemma C6_witness :
  length
    (circles
       (calcC (mkPoincareTexture 300 300 [] [] [] [mkvec2 (1 / 2)%R 0%R] [] None)))
  = 1%nat.
Proof.
  exact (proj1 (proj2 (C6_calcC_builds_in_order
                  (mkPoincareTexture 300 300 [] [] [] [mkvec2 (1 / 2)%R 0%R] [] None)))).
Defined.

(** C7 with fuel 7 for a 300×300 texture. *)
Lemma C7_witness :
  (7 <= 7)%nat
  /\ exists s : PoincareTexture R,
       math 7 (member_init 300 300) = Some s
       /\ length (circles s) = 54%nat
       /\ forall c : vec3 R,
            In c (circles s) -> (v3x c ^ 2 + v3y c ^ 2 = 1 + v3z c ^ 2)%R.
Proof.
  split; [lia|].
  exact (C7_circles_orthogonal_to_unit_circle 7 300 300 (le_n 7)).
Defined.

(** C8 with fuel 7. *)
Lemma C8_witness :
  (7 <= 7)%nat
  /\ exists (s : PoincareTexture R) (im : list (vec4 R)),
       construct 7 300 300 = Some s
       /\ texture s = Some (mkTexture 300 300 im)
       /\ normalized 150 300 = 0%R
       /\ (sqrt (0 ^ 2 + 0 ^ 2) <= 1)%R
       /\ length (circles s) = 54%nat
       /\ countCircles s (mkvec2 0%R 0%R) = 0%Z
       /\ nth_error im (Z.to_nat (150 * 300 + 150))
          = Some (mkvec4 1%R 1%R 0%R 1%R).
Proof.
  split; [lia|].
  exact (C8_center_pixel_is_yellow 7 (le_n 7)).
Defined.

(** C10, as the code has it, at the dimensions 0×0 reached from 300×300 by
    three decreases of 100. *)
Lemma C10_witness :
  (0 <= 0 \/ 0 <= 0)%Z
  /\ RenderToTexture (member_init (F := R) 100 100) 0 0 = []
  /\ texture (increaseResolution (member_init (F := R) 100 100) (-100))
     = Some (mkTexture 0 0 []).
Proof.
  split; [lia|].
  destruct (C10_nonpositive_dimension_empty_grid
              (member_init (F := R) 100 100) 0 0 ltac:(lia))
    as (Hempty & _ & _ & _ & _ & Hres).
  split; [exact Hempty|].
  exact (proj2 (proj2 (Hres (-100)%Z eq_refl eq_refl))).
Defined.

(** ** Further properties of the texture object, for every arithmetic *)

Section TextureObject.

Context {F : Type} {ops : FloatOps F}.
Local Open Scope float_scope.

Implicit Types (s : PoincareTexture F) (W H : Z).

Lemma increaseResolution_add s (a b : Z) :
  increaseResolution (increaseResolution s a) b = increaseResolution s (a + b).
Proof.
  rewrite !increaseResolution_unfold. cbn.
  replace (width s + a + b)%Z with (width s + (a + b))%Z by lia.
  replace (height s + a + b)%Z with (height s + (a + b))%Z by lia.
  do 2 f_equal. f_equal. rewrite !RenderToTexture_grid. now apply grid_circles.
Qed.

Lemma increaseResolution_fold s (a : Z) (ds : list Z) :
  fold_left increaseResolution ds (increaseResolution s a)
  = increaseResolution s (a + fold_right Z.add 0%Z ds).
Proof.
  revert a. induction ds as [|d ds IH]; intros a; simpl.
  - now rewrite Z.add_0_r.
  - rewrite increaseResolution_add, IH. f_equal. lia.
Qed.

(** [calcH] leaves every member but [hyperbolicPoints] as it was. *)
Lemma calcH_frame (fuel : nat) s s' :
  calcH fuel s = Some s' ->
  exists hp : list (vec3 F), s' = set_hyperbolicPoints s hp.
Proof.
  unfold calcH. destruct (calcH_directions fuel 0 (hyperbolicPoints s)) as [hp|];
    [|discriminate].
  cbn. intros [= <-]. now exists hp.
Qed.

Lemma math_frame (fuel : nat) s s' :
  math fuel s = Some s' ->
  width s' = width s /\ height s' = height s /\ texture s' = texture s
  /\ points s' = points s /\ centres s' = centres s.
Proof.
  unfold math. destruct (calcH fuel s) as [s1|] eqn:HcalcH; [|discriminate].
  cbn. intros [= <-]. apply calcH_frame in HcalcH as (hp & ->).
  repeat split.
Qed.

(** What the constructor leaves: the requested dimensions and a texture
    holding the grid rendered at them from the object's own circles. *)
Lemma construct_inv (fuel : nat) (w h : Z) s :
  construct fuel w h = Some s ->
  width s = w /\ height s = h
  /\ texture s = Some (mkTexture w h (RenderToTexture s w h)).
Proof.
  unfold construct. destruct (math fuel (member_init w h)) as [s1|] eqn:Hmath;
    [|discriminate].
  cbn. intros [= <-]. apply math_frame in Hmath as (Hw & Hh & _).
  cbn in Hw, Hh. unfold create. cbn. repeat split; try assumption.
  do 2 f_equal. rewrite !RenderToTexture_grid. now apply grid_circles.
Qed.

Lemma increaseResolution_0 (fuel : nat) (w h : Z) s :
  construct fuel w h = Some s -> increaseResolution s 0 = s.
Proof.
  intros Hc. apply construct_inv in Hc as (Hw & Hh & Htex).
  rewrite increaseResolution_unfold. destruct s as [w' h' ps cs hp pp ci tex].
  cbn in *. subst w' h'. rewrite !Z.add_0_r. f_equal. symmetry. exact Htex.
Qed.

(** X1. Two resolution changes in a row are one change by the sum of the
    two amounts, on every object: the result depends on the circle set and on
    the final dimensions only. *)
Theorem X1_resolution_changes_add s (a b : Z) :
  increaseResolution (increaseResolution s a) b = increaseResolution s (a + b).
Proof. apply increaseResolution_add. Qed.

(** X2. On a constructed object, a sequence of resolution changes is one
    change by the sum of its amounts; when the amounts sum to zero, as for
    'r' followed by 'R', the object is exactly what it was, texture
    included. *)
Theorem X2_resolution_changes_round_trip (fuel : nat) (w h : Z) s (ds : list Z) :
  construct fuel w h = Some s ->
  fold_left increaseResolution ds s
  = increaseResolution s (fold_right Z.add 0%Z ds)
  /\ (fold_right Z.add 0%Z ds = 0%Z -> fold_left increaseResolution ds s = s).
Proof.
  intros Hc.
  assert (Hfold : fold_left increaseResolution ds s
                  = increaseResolution s (fold_right Z.add 0%Z ds)).
  { rewrite <- (increaseResolution_0 fuel w h s Hc) at 1.
    now rewrite increaseResolution_fold. }
  split; [exact Hfold|].
  intros Hsum. rewrite Hfold, Hsum. now apply (increaseResolution_0 fuel w h).
Qed.

Lemma length_filter_le {A : Type} (f : A -> bool) (l : list A) :
  (length (filter f l) <= length l)%nat.
Proof.
  induction l as [|a l IH]; simpl; [lia|]. destruct (f a); simpl; lia.
Qed.

(** X3. The count of [countCircles] is never negative and never exceeds the
    number of circles of the object. *)
Theorem X3_countCircles_bounds s (point : vec2 F) :
  (0 <= countCircles s point <= Z.of_nat (length (circles s)))%Z.
Proof.
  rewrite countCircles_filter.
  pose proof (length_filter_le (contains point) (circles s)). lia.
Qed.

Lemma pixel_cases s W (xC yC : Z) :
  pixel s W xC yC = black \/ pixel s W xC yC = yellow \/ pixel s W xC yC = blue.
Proof.
  unfold pixel.
  destruct (fsqrt _ >? of_int 1); [now left|].
  destruct (Z.rem _ 2 =? 0)%Z; [right; now left | right; now right].
Qed.

(** X4. Whatever the object and the dimensions, every entry of a rendered
    grid is one of the three colours (0,0,0,1), (1,1,0,1) and (0,0,1,1). *)
Theorem X4_render_three_colours s W H (c : vec4 F) :
  In c (RenderToTexture s W H) ->
  c = mkvec4 (of_int 0) (of_int 0) (of_int 0) (of_int 1)
  \/ c = mkvec4 (of_int 1) (of_int 1) (of_int 0) (of_int 1)
  \/ c = mkvec4 (of_int 0) (of_int 0) (of_int 1) (of_int 1).
Proof.
  rewrite RenderToTexture_grid. unfold grid, grid_row.
  rewrite in_flat_map. intros (j & _ & Hc).
  apply in_map_iff in Hc as (k & <- & _). apply pixel_cases.
Qed.

Lemma distances_app (fuel : nat) (iv : vec3 F) :
  forall (dh : F) (hp : list (vec3 F)),
    calcH_distances fuel iv dh hp
    = option_map (app hp) (calcH_distances fuel iv dh []).
Proof.
  induction fuel as [|fuel IH]; intros dh hp; simpl; [reflexivity|].
  destruct (dh <=? lit_5_5).
  - rewrite (IH _ (hp ++ _)). rewrite (IH _ [_]).
    destruct (calcH_distances fuel iv (dh + of_int 1) []) as [l|]; simpl;
      [|reflexivity].
    now rewrite <- app_assoc.
  - simpl. now rewrite app_nil_r.
Qed.

Lemma directions_fail (fuel : nat) (i : Z) (hp : list (vec3 F)) :
  (i < 9)%Z ->
  calcH_distances fuel (calculateIv i) lit_0_5 hp = None ->
  calcH_directions fuel i hp = None.
Proof.
  intros Hi Hd. rewrite calcH_directions_equation_1.
  destruct (Z_lt_dec i 9); [|lia]. simpl. now rewrite Hd.
Qed.

Lemma directions_app (fuel : nat) (n : nat) :
  forall (i : Z) (hp : list (vec3 F)),
    Z.to_nat (9 - i) = n ->
    calcH_directions fuel i hp
    = option_map (app hp) (calcH_directions fuel i []).
Proof.
  induction n as [|n IH]; intros i hp Hn.
  - rewrite !directions_exit by lia. simpl. now rewrite app_nil_r.
  - destruct (calcH_distances fuel (calculateIv i) lit_0_5 []) as [l|] eqn:Hd.
    + rewrite (directions_step fuel i hp (hp ++ l))
        by (try lia; rewrite distances_app, Hd; reflexivity).
      rewrite (directions_step fuel i [] l) by (try lia; exact Hd).
      rewrite IH by lia. rewrite (IH _ l) by lia.
      destruct (calcH_directions fuel (i + 1) []) as [l'|]; simpl; [|reflexivity].
      now rewrite <- app_assoc.
    + rewrite !directions_fail; try lia; try reflexivity.
      * exact Hd.
      * now rewrite distances_app, Hd.
Qed.

(** [math] in one step: the points [calcH] generates are appended, all
    hyperboloid points are projected and appended, and a circle is appended
    for every disk point then present. *)
Lemma math_unfold (fuel : nat) s :
  math fuel s
  = option_map
      (fun l =>
         let hp := hyperbolicPoints s ++ l in
         let pp := poincarePoints s ++ map project hp in
         mkPoincareTexture (width s) (height s) (points s) (centres s)
           hp pp (circles s ++ map circleOf pp) (texture s))
      (calcH_directions fuel 0 []).
Proof.
  unfold math, calcH. rewrite (directions_app fuel 9) by reflexivity.
  destruct (calcH_directions fuel 0 []) as [l|]; [|reflexivity].
  cbn. unfold calcC, calcP, set_circles, set_poincarePoints. cbn.
  now rewrite calcP_loop_map, calcC_loop_map.
Qed.

Lemma length_filter_app4 {A : Type} (f : A -> bool) (l : list A) :
  length (filter f (l ++ l ++ l ++ l)) = (4 * length (filter f l))%nat.
Proof. rewrite !filter_app, !length_app. lia. Qed.

(** X5. [math()] appends to the three vectors without clearing them.  Run a
    second time on the object the constructor has built, it returns, doubles
    the hyperboloid points, triples the disk points and leaves every circle
    four times; every containment count is then a multiple of four, so no
    pixel is coloured (0,0,1,1) any more. *)
Theorem X5_math_again_quadruples (fuel : nat) (w h : Z) s :
  math fuel (member_init w h) = Some s ->
  exists s2 : PoincareTexture F,
    math fuel s = Some s2
    /\ hyperbolicPoints s2 = hyperbolicPoints s ++ hyperbolicPoints s
    /\ poincarePoints s2 = poincarePoints s ++ poincarePoints s ++ poincarePoints s
    /\ circles s2 = circles s ++ circles s ++ circles s ++ circles s
    /\ (forall point : vec2 F,
          countCircles s2 point = (4 * countCircles s point)%Z)
    /\ (forall W xC yC : Z,
          pixel s2 W xC yC
          = if fsqrt (fpow (normalized xC W) 2 + fpow (normalized yC W) 2)
               >? of_int 1
            then mkvec4 (of_int 0) (of_int 0) (of_int 0) (of_int 1)
            else mkvec4 (of_int 1) (of_int 1) (of_int 0) (of_int 1)).
Proof.
  rewrite (math_unfold fuel (member_init w h)).
  destruct (calcH_directions fuel 0 []) as [l|] eqn:Hl; [|discriminate].
  cbn. intros [= <-].
  eexists. split.
  { rewrite math_unfold, Hl. cbn. reflexivity. }
  cbn [hyperbolicPoints poincarePoints circles].
  assert (Hcs : map circleOf (map project l)
                ++ map circleOf (map project l ++ map project (l ++ l))
                = map circleOf (map project l) ++ map circleOf (map project l)
                  ++ map circleOf (map project l) ++ map circleOf (map project l)).
  { now rewrite !map_app. }
  split; [reflexivity|]. split; [now rewrite map_app|]. split; [exact Hcs|].
  assert (Hcount : forall point : vec2 F,
            countCircles
              (mkPoincareTexture w h [] [] (l ++ l)
                 (map project l ++ map project (l ++ l))
                 (map circleOf (map project l)
                  ++ map circleOf (map project l ++ map project (l ++ l)))
                 None) point
            = (4 * countCircles
                     (mkPoincareTexture w h [] [] l (map project l)
                        (map circleOf (map project l)) None) point)%Z).
  { intros point. rewrite !countCircles_filter. cbn [circles].
    rewrite Hcs, length_filter_app4. lia. }
  split; [exact Hcount|].
  intros W xC yC. unfold pixel, manyCircles. rewrite Hcount.
  destruct (fsqrt _ >? of_int 1); [reflexivity|].
  replace (4 * _)%Z with ((2 * countCircles
                     (mkPoincareTexture w h [] [] l (map project l)
                        (map circleOf (map project l)) None)
                     (mkvec2 (normalized xC W) (normalized yC W))) * 2)%Z by lia.
  now rewrite Z.rem_mul by lia.
Qed.

End TextureObject.

(** ** The circle set across a resolution change *)



(** ** Further properties of the lattice, the circles and the grid over the
    real numbers *)

Section RealGeometry.

Local Open Scope R_scope.

Lemma Rgtb_true (a b : R) : b < a -> Rgtb a b = true.
Proof. intros Hab. unfold Rgtb. destruct (Rgt_dec a b); [reflexivity | lra]. Qed.

Lemma nth_error_lattice (i j : Z) :
  (0 <= i < 9)%Z -> (0 <= j < 6)%Z ->
  nth_error LatticeSpec.lattice (Z.to_nat (6 * i + j))
  = Some (LatticeSpec.lattice_point i (1 / 2 + IZR j)).
Proof.
  intros Hi Hj.
  replace (Z.to_nat (6 * i + j)) with (Z.to_nat i * 6 + Z.to_nat j)%nat by lia.
  unfold LatticeSpec.lattice.
  rewrite (nth_error_flat_map_uniform _ 6%nat) with (a := i).
  - now rewrite nth_error_map, nth_error_distances.
  - intros a. reflexivity.
  - lia.
  - now apply nth_error_directions.
Qed.

Lemma project_lattice_point_eq (i : Z) (d : R) :
  project (LatticeSpec.lattice_point i d)
  = mkvec2 (cos (LatticeSpec.degrees (IZR i * 40)) * (sinh d / (1 + cosh d)))
           (sin (LatticeSpec.degrees (IZR i * 40)) * (sinh d / (1 + cosh d))).
Proof.
  pose proof (cosh2_sinh2 d) as Hh. pose proof (cosh_ge_1 d) as Hc.
  unfold project. destruct (lattice_point_coords i d) as (-> & -> & ->).
  cbn [fdiv fadd of_int R_ops].
  replace (cosh d + sinh d * sinh d + 1) with (cosh d * (1 + cosh d)) by lra.
  f_equal; field; lra.
Qed.

Lemma circleOf_scaled_direction (t C S : R) :
  0 < t -> C * C + S * S = 1 ->
  circleOf (mkvec2 (C * t) (S * t))
  = mkvec3 (C * ((1 / t + t) / 2)) (S * ((1 / t + t) / 2)) ((1 / t - t) / 2).
Proof.
  intros Ht HCS.
  unfold circleOf, calculateR, normalize, length2, vec2_add, vec2_scale.
  cbn [v2x v2y fadd fsub fmul fdiv fsqrt fpow of_int R_ops].
  replace (C * t * (C * t) + S * t * (S * t)) with ((C * t) ^ 2 + (S * t) ^ 2) by ring.
  rewrite norm_scaled_direction by (assumption || lra).
  f_equal; field; lra.
Qed.

Lemma half_angle_radius (d : R) :
  0 < d ->
  let t := sinh d / (1 + cosh d) in
  0 < t /\ (1 / t - t) / 2 = 1 / sinh d /\ (1 / t + t) / 2 = cosh d / sinh d.
Proof.
  intros Hd t. unfold t.
  pose proof (cosh2_sinh2 d) as Hh. pose proof (cosh_ge_1 d) as Hc.
  pose proof (sinh_pos d Hd) as Hs.
  assert (Hinv : 1 / (sinh d / (1 + cosh d)) = (1 + cosh d) / sinh d) by (field; lra).
  assert (Hquot : sinh d / (1 + cosh d) = (cosh d - 1) / sinh d).
  { apply (Rmult_eq_reg_r (sinh d * (1 + cosh d))); [|nra].
    replace (sinh d / (1 + cosh d) * (sinh d * (1 + cosh d)))
      with (sinh d * sinh d) by (field; lra).
    replace ((cosh d - 1) / sinh d * (sinh d * (1 + cosh d)))
      with (cosh d * cosh d - 1) by (field; lra).
    lra. }
  split; [apply Rdiv_lt_0_compat; lra|].
  rewrite Hinv, Hquot. split; field; lra.
Qed.

(** X6. The point [calcH] stores is not on the hyperboloid, but its
    projection is the one of the hyperboloid point at distance [d] in the same
    direction: projecting [calculateP(calculateIvv(iv, d), d)] gives the same
    disk point as projecting [calculateP(iv, d)], which does satisfy
    [x²+y² = z²−1], namely [iv] scaled by [sinh d / (1 + cosh d)]. *)
Theorem X6_projection_agrees_with_hyperboloid_point (i : Z) (d : R) :
  let iv := calculateIv i in
  let stored := calculateP (calculateIvv iv d) d in
  let onSheet := calculateP iv d in
  v3x onSheet ^ 2 + v3y onSheet ^ 2 = v3z onSheet ^ 2 - 1
  /\ mkvec2 (v3x stored / (v3z stored + 1)) (v3y stored / (v3z stored + 1))
     = mkvec2 (v3x onSheet / (v3z onSheet + 1)) (v3y onSheet / (v3z onSheet + 1))
  /\ mkvec2 (v3x stored / (v3z stored + 1)) (v3y stored / (v3z stored + 1))
     = mkvec2 (v3x iv * (sinh d / (1 + cosh d))) (v3y iv * (sinh d / (1 + cosh d))).
Proof.
  intros iv stored onSheet.
  pose proof (cosh2_sinh2 d) as Hh. pose proof (cosh_ge_1 d) as Hc.
  pose proof (cos2_sin2 (IZR (i * 40) * PI / 180)) as Hcs.
  assert (Hstored :
    mkvec2 (v3x stored / (v3z stored + 1)) (v3y stored / (v3z stored + 1))
    = mkvec2 (v3x iv * (sinh d / (1 + cosh d))) (v3y iv * (sinh d / (1 + cosh d)))).
  { unfold stored, iv. rewrite calculateP_lattice.
    pose proof (project_lattice_point_eq i d) as Hp. unfold project in Hp.
    cbn [fdiv fadd of_int R_ops] in Hp. rewrite Hp.
    unfold calculateIv, LatticeSpec.degrees. cbn. now rewrite mult_IZR. }
  split; [|split].
  - unfold onSheet, iv, calculateP, calculateIv, vec3_add, vec3_scale, apex.
    cbn [v3x v3y v3z fadd fmul fdiv fcos fsin fcosh fsinh M_PI of_int R_ops].
    set (C := cos _) in *. set (S := sin _) in *.
    replace ((0 * cosh d + C * sinh d) ^ 2 + (0 * cosh d + S * sinh d) ^ 2)
      with ((C * C + S * S) * (sinh d * sinh d)) by ring.
    rewrite Hcs. replace ((1 * cosh d + 0 * sinh d) ^ 2) with (cosh d * cosh d) by ring.
    lra.
  - rewrite Hstored.
    unfold onSheet, iv, calculateP, calculateIv, vec3_add, vec3_scale, apex.
    cbn [v3x v3y v3z fadd fmul fdiv fcos fsin fcosh fsinh M_PI of_int R_ops].
    f_equal; field; lra.
  - exact Hstored.
Qed.

(** X7. The circle built for direction [i] and distance [d = 0.5 + j] is
    entry [6·i + j] of [circles]; its center is the direction scaled by
    [cosh d / sinh d] and its stored radius is [1 / sinh d], which is
    positive. *)
Theorem X7_circle_center_and_radius (fuel : nat) (w h : Z) (i j : Z) :
  (7 <= fuel)%nat -> (0 <= i < 9)%Z -> (0 <= j < 6)%Z ->
  let d := 1 / 2 + IZR j in
  let theta := IZR (i * 40) * PI / 180 in
  exists s : PoincareTexture R,
    math fuel (member_init w h) = Some s
    /\ nth_error (circles s) (Z.to_nat (6 * i + j))
       = Some (mkvec3 (cos theta * (cosh d / sinh d))
                      (sin theta * (cosh d / sinh d))
                      (1 / sinh d))
    /\ 0 < 1 / sinh d.
Proof.
  intros Hfuel Hi Hj d theta.
  assert (Hd : 0 < d) by (unfold d; pose proof (IZR_le 0 j ltac:(lia)); lra).
  destruct (half_angle_radius d Hd) as (Ht & Hrad & Hcen).
  eexists. split; [now apply math_member_init|]. cbn [circles].
  split.
  - rewrite !nth_error_map, nth_error_lattice by assumption. cbn [option_map].
    rewrite project_lattice_point_eq.
    rewrite circleOf_scaled_direction by (assumption || apply cos2_sin2).
    fold d. rewrite Hrad, Hcen.
    unfold theta, LatticeSpec.degrees. now rewrite mult_IZR.
  - apply Rdiv_lt_0_compat; [lra | now apply sinh_pos].
Qed.

(** X8. For a disk point [q] with [0 < ‖q‖ ≤ 1] the circle [calcC] stores
    passes through [q]: over the real numbers the distance
    [calculateDistance] computes from [q] to the stored center is the stored
    radius itself.  The point thus lies exactly on the boundary of the test
    [<=] of [countCircles], whose outcome for [q] is left to rounding and is
    not stated here. *)
Theorem X8_circle_passes_through_its_point (q : vec2 R) :
  0 < v2x q * v2x q + v2y q * v2y q <= 1 ->
  calculateDistance q (circleOf q) = v3z (circleOf q)
  /\ 0 <= v3z (circleOf q).
Proof.
  destruct q as [x y]. cbn [v2x v2y]. intros [Hpos Hle].
  unfold calculateDistance, circleOf, calculateR, normalize, length2,
    vec2_add, vec2_scale.
  cbn [v2x v2y v3x v3y v3z fadd fsub fmul fdiv fsqrt fpow of_int R_ops].
  replace (x ^ 2 + y ^ 2) with (x * x + y * y) by ring.
  set (L := sqrt (x * x + y * y)).
  assert (HL : L * L = x * x + y * y) by (apply sqrt_sqrt; lra).
  assert (HLpos : 0 < L) by (apply sqrt_lt_R0; exact Hpos).
  assert (HL1 : L <= 1).
  { unfold L. rewrite <- sqrt_1. apply sqrt_le_1; lra. }
  clearbody L.
  assert (Hu : L * (1 / L) = 1) by (field; lra).
  assert (Hu1 : 1 <= 1 / L).
  { unfold Rdiv. rewrite Rmult_1_l. rewrite <- Rinv_1 at 1.
    apply Rinv_le_contravar; lra. }
  set (u := 1 / L) in *. clearbody u.
  split; [|lra].
  replace ((x - (x + x * u * ((u - L) / 2))) ^ 2
           + (y - (y + y * u * ((u - L) / 2))) ^ 2)
    with ((x * x + y * y) * (u * ((u - L) / 2)) ^ 2) by ring.
  rewrite <- HL.
  replace (L * L * (u * ((u - L) / 2)) ^ 2)
    with ((L * u * ((u - L) / 2)) ^ 2) by ring.
  rewrite Hu, Rmult_1_l. apply sqrt_pow2. lra.
Qed.

(** X9. [countCircles] compares the distance with the stored third component
    as it is: a circle it counts has a non-negative one, and the circle built
    from a point of norm above 1 has a negative one and is counted for no
    point at all. *)
Theorem X9_negative_radius_never_counted (point : vec2 R) :
  (forall c : vec3 R,
     (calculateDistance point c <=? v3z c)%flt = true -> 0 <= v3z c)
  /\ (forall q : vec2 R,
        1 < v2x q * v2x q + v2y q * v2y q ->
        v3z (circleOf q) < 0
        /\ (calculateDistance point (circleOf q) <=? v3z (circleOf q))%flt = false).
Proof.
  assert (Hcounted : forall c : vec3 R,
            (calculateDistance point c <=? v3z c)%flt = true -> 0 <= v3z c).
  { intros c Hc. cbn [fle R_ops] in Hc. unfold Rleb in Hc.
    destruct (Rle_dec _ _) as [Hle|]; [|discriminate].
    unfold calculateDistance in Hle. cbn [fsqrt R_ops] in Hle.
    eapply Rle_trans; [apply sqrt_pos | exact Hle]. }
  split; [exact Hcounted|].
  intros [x y]. cbn [v2x v2y]. intros Hq.
  assert (Hneg : v3z (circleOf (mkvec2 x y)) < 0).
  { unfold circleOf, calculateR.
    cbn [v2x v2y v3z fsub fadd fdiv fsqrt fpow of_int R_ops].
    replace (x ^ 2 + y ^ 2) with (x * x + y * y) by ring.
    set (L := sqrt (x * x + y * y)).
    assert (HL1 : 1 < L).
    { unfold L. rewrite <- sqrt_1 at 1. apply sqrt_lt_1; lra. }
    clearbody L.
    assert (Hu : 1 / L < 1).
    { unfold Rdiv. rewrite Rmult_1_l. rewrite <- Rinv_1 at 1.
      apply Rinv_lt_contravar; lra. }
    lra. }
  split; [exact Hneg|].
  destruct ((calculateDistance point (circleOf (mkvec2 x y))
             <=? v3z (circleOf (mkvec2 x y)))%flt) eqn:Hc; [|reflexivity].
  apply Hcounted in Hc. lra.
Qed.

Lemma normalized_R (c W : Z) :
  normalized c W = IZR c / IZR W * 2 - 1.
Proof. reflexivity. Qed.

Lemma quotient_bounds (x w : R) :
  0 < w -> (0 <= x -> 0 <= x / w) /\ (x < w -> x / w < 1) /\ (w < x -> 1 < x / w).
Proof.
  intros Hw. assert (Hu : 0 < / w) by now apply Rinv_0_lt_compat.
  assert (Hwu : w * / w = 1) by (apply Rinv_r; lra).
  unfold Rdiv. repeat split; intros Hx; nra.
Qed.

(** X10. For a pixel index [c] with [0 ≤ c < W] the normalized coordinate
    lies in [[-1, 1)]: index 0 maps to -1, the coordinate grows strictly with
    the index, and the value 1 is never reached. *)
Theorem X10_normalized_range (W c : Z) :
  (0 <= c < W)%Z ->
  -1 <= normalized c W < 1
  /\ normalized 0 W = -1
  /\ (forall c' : Z, (c < c')%Z -> normalized c W < normalized c' W).
Proof.
  intros [Hc0 HcW]. rewrite !normalized_R.
  assert (Hw : 0 < IZR W) by (apply (IZR_lt 0); lia).
  destruct (quotient_bounds (IZR c) (IZR W) Hw) as (Hge & Hlt & _).
  pose proof (Hge (IZR_le 0 c Hc0)). pose proof (Hlt (IZR_lt c W HcW)).
  split; [lra|]. split.
  - unfold Rdiv. rewrite Rmult_0_l. lra.
  - intros c' Hcc'. rewrite normalized_R.
    assert (Hu : 0 < / IZR W) by now apply Rinv_0_lt_compat.
    pose proof (IZR_lt c c' Hcc'). unfold Rdiv. nra.
Qed.

(** X11. Both coordinates are divided by the width.  So in a render with
    positive dimensions the first entry, the pixel (0,0), is black, and when
    the height exceeds the width every pixel of a row with index above the
    width is black, whatever the circles. *)
Theorem X11_rows_past_width_are_black (s : PoincareTexture R) (W H : Z) :
  (0 < W)%Z -> (0 < H)%Z ->
  nth_error (RenderToTexture s W H) 0 = Some (mkvec4 0 0 0 1)
  /\ (forall xc yc : Z,
        (0 <= xc < W)%Z -> (W < yc < H)%Z ->
        nth_error (RenderToTexture s W H) (Z.to_nat (yc * W + xc))
        = Some (mkvec4 0 0 0 1)).
Proof.
  intros HW HH.
  assert (Hw : 0 < IZR W) by (apply (IZR_lt 0); lia).
  assert (Hblack : forall xc yc : Z,
            1 < normalized xc W ^ 2 + normalized yc W ^ 2 ->
            pixel s W xc yc = mkvec4 0 0 0 1).
  { intros xc yc Hout. unfold pixel.
    cbn [fgt fsqrt fadd fpow of_int R_ops].
    rewrite Rgtb_true; [reflexivity|].
    rewrite <- sqrt_1 at 1. apply sqrt_lt_1; lra. }
  split.
  - change 0%nat with (Z.to_nat (0 * W + 0)).
    rewrite RenderToTexture_grid, nth_error_grid by lia.
    f_equal. apply Hblack. rewrite normalized_R.
    unfold Rdiv. rewrite Rmult_0_l. lra.
  - intros xc yc Hxc Hyc.
    rewrite RenderToTexture_grid, nth_error_grid by lia.
    f_equal. apply Hblack.
    destruct (quotient_bounds (IZR yc) (IZR W) Hw) as (_ & _ & Hgt).
    pose proof (Hgt (IZR_lt W yc ltac:(lia))) as Hy.
    pose proof (pow2_ge_0 (normalized xc W)) as Hx2.
    rewrite (normalized_R yc W).
    assert (Hy1 : 1 < IZR yc / IZR W * 2 - 1) by lra.
    nra.
Qed.

End RealGeometry.

(** ** The star and the handlers, for every arithmetic *)

Section StarFacts.

Context {F : Type} {ops : FloatOps F} {eqops : FloatEq F}.
Local Open Scope float_scope.

Variables GLUT_LEFT_BUTTON GLUT_RIGHT_BUTTON GLUT_DOWN : Z.

Lemma schlankheitsfaktor_vertex_uv (s : F) (v : VertexData F) :
  uv (schlankheitsfaktor_vertex s v) = uv v.
Proof.
  unfold schlankheitsfaktor_vertex.
  repeat match goal with
         | |- context [if ?b then _ else _] => destruct b
         end; reflexivity.
Qed.

Lemma schlankheitsfaktor_loop_map (s : F) (it : list (VertexData F)) :
  schlankheitsfaktor_loop s it = map (schlankheitsfaktor_vertex s) it.
Proof. induction it as [|v it IH]; simpl; [reflexivity | now rewrite IH]. Qed.

Lemma schlankheitsfaktor_loop_uv (s : F) (it : list (VertexData F)) :
  map (@uv F) (schlankheitsfaktor_loop s it) = map (@uv F) it.
Proof.
  rewrite schlankheitsfaktor_loop_map, map_map.
  apply map_ext. intros v. apply schlankheitsfaktor_vertex_uv.
Qed.

Lemma schlankheitsfaktor_loop_length (s : F) (it : list (VertexData F)) :
  length (schlankheitsfaktor_loop s it) = length it.
Proof. now rewrite schlankheitsfaktor_loop_map, length_map. Qed.

(** The texture coordinates [updateV] assigns, vertex by vertex. *)
Lemma updateV_uv (st : Star F) :
  map (@uv F) (data (updateV st))
  = [ mkvec2 lit_0_5 lit_0_5; mkvec2 (of_int 1) lit_0_5;
      mkvec2 (of_int 1) (of_int 1); mkvec2 lit_0_5 (of_int 1);
      mkvec2 (of_int 0) (of_int 1); mkvec2 (of_int 0) lit_0_5;
      mkvec2 (of_int 0) (of_int 0); mkvec2 lit_0_5 (of_int 0);
      mkvec2 (of_int 1) (of_int 0); mkvec2 (of_int 1) lit_0_5 ].
Proof. reflexivity. Qed.

(** What holds of a state of the program, relative to the texture object
    [s0] its constructor built: the texture is [s0] after one resolution
    change by a multiple of 100. *)
Lemma Reachable_texture (fuel : nat) (a : App F) :
  Reachable GLUT_LEFT_BUTTON GLUT_RIGHT_BUTTON GLUT_DOWN fuel a ->
  exists (s0 : PoincareTexture F) (k : Z),
    construct fuel 300 300 = Some s0
    /\ star_texture (star a) = increaseResolution s0 (100 * k)
    /\ length (data (star a)) = 10%nat
    /\ map (@uv F) (data (star a))
       = map (@uv F) (data (updateV (star a)))
    /\ phi (star a) = selfRotation (star a).
Proof.
  induction 1 as [a Hinit | key elapsed a _ IH | button state a _ IH
                  | currentTime a _ IH].
  - unfold onInitialization, Star_construct in Hinit.
    destruct (construct fuel 300 300) as [s0|] eqn:Hc; [|discriminate].
    cbn in Hinit. injection Hinit as <-.
    exists s0, 0%Z. cbn.
    split; [reflexivity|]. split; [|repeat split].
    symmetry. apply (increaseResolution_0 fuel 300 300 s0 Hc).
  - destruct IH as (s0 & k & Hc & Htex & Hlen & Huv & Hphi).
    unfold onKeyboard.
    destruct (Ascii.eqb key "h");
      [|destruct (Ascii.eqb key "H");
        [|destruct (Ascii.eqb key "a");
          [|destruct (Ascii.eqb key "r"); [|destruct (Ascii.eqb key "R")]]]].
    + exists s0, k. cbn. rewrite schlankheitsfaktor_loop_length,
        schlankheitsfaktor_loop_uv. now repeat split.
    + exists s0, k. cbn. rewrite schlankheitsfaktor_loop_length,
        schlankheitsfaktor_loop_uv. now repeat split.
    + exists s0, k. cbn. now repeat split.
    + exists s0, (k + 1)%Z.
      cbn [star star_texture set_star set_star_texture data phi selfRotation].
      rewrite Htex, increaseResolution_add.
      replace (100 * (k + 1))%Z with (100 * k + 100)%Z by lia.
      now repeat split.
    + exists s0, (k - 1)%Z.
      cbn [star star_texture set_star set_star_texture data phi selfRotation].
      rewrite Htex, increaseResolution_add.
      replace (100 * (k - 1))%Z with (100 * k + -100)%Z by lia.
      now repeat split.
    + exists s0, k. now repeat split.
  - destruct IH as (s0 & k & Hc & Htex & Hlen & Huv & Hphi).
    exists s0, k. unfold onMouse.
    destruct (button =? GLUT_LEFT_BUTTON)%Z, (button =? GLUT_RIGHT_BUTTON)%Z;
      cbn; now repeat split.
  - destruct IH as (s0 & k & Hc & Htex & Hlen & Huv & Hphi).
    exists s0, k. unfold onIdle. destruct (isAnimating a); cbn; now repeat split.
Qed.

(** X12. In every state of the program, whatever events led to it: the
    texture is square with side 300 + 100·k for some integer k, it still has
    the circle set the constructor built, and it holds the grid rendered from
    that set at its current dimensions; the star has ten vertices with the
    texture coordinates [updateV] gave them; and the two angles are equal. *)
Theorem X12_reachable_invariant (fuel : nat) (a : App F) :
  Reachable GLUT_LEFT_BUTTON GLUT_RIGHT_BUTTON GLUT_DOWN fuel a ->
  exists (s0 : PoincareTexture F) (k : Z),
    let tex := star_texture (star a) in
    let side := (300 + 100 * k)%Z in
    construct fuel 300 300 = Some s0
    /\ width tex = side /\ height tex = side
    /\ circles tex = circles s0
    /\ texture tex = Some (mkTexture side side (RenderToTexture s0 side side))
    /\ length (data (star a)) = 10%nat
    /\ map (@uv F) (data (star a))
       = [ mkvec2 lit_0_5 lit_0_5; mkvec2 (of_int 1) lit_0_5;
           mkvec2 (of_int 1) (of_int 1); mkvec2 lit_0_5 (of_int 1);
           mkvec2 (of_int 0) (of_int 1); mkvec2 (of_int 0) lit_0_5;
           mkvec2 (of_int 0) (of_int 0); mkvec2 lit_0_5 (of_int 0);
           mkvec2 (of_int 1) (of_int 0); mkvec2 (of_int 1) lit_0_5 ]
    /\ phi (star a) = selfRotation (star a).
Proof.
  intros Hreach.
  destruct (Reachable_texture fuel a Hreach)
    as (s0 & k & Hc & Htex & Hlen & Huv & Hphi).
  exists s0, k. cbv zeta.
  destruct (construct_inv fuel 300 300 s0 Hc) as (Hw & Hh & _).
  rewrite Htex, increaseResolution_unfold.
  cbn [width height circles texture]. rewrite Hw, Hh.
  split; [exact Hc|]. do 3 (split; [reflexivity|]).
  split; [reflexivity|]. split; [exact Hlen|].
  split; [rewrite Huv; apply updateV_uv | exact Hphi].
Qed.

Lemma onKeyboard_r (elapsed : Z) (a : App F) :
  onKeyboard "r" elapsed a
  = set_star a
      (set_star_texture (star a) (increaseResolution (star_texture (star a)) 100)).
Proof. reflexivity. Qed.

Lemma onKeyboard_R (elapsed : Z) (a : App F) :
  onKeyboard "R" elapsed a
  = set_star a
      (set_star_texture (star a) (increaseResolution (star_texture (star a)) (-100))).
Proof. reflexivity. Qed.

(** X13. In every state of the program the keys 'r' and 'R' undo each
    other: pressing one and then the other gives back the state exactly, with
    the same texture object and the same grid. *)
Theorem X13_keys_r_R_undo_each_other (fuel : nat) (e1 e2 : Z) (a : App F) :
  Reachable GLUT_LEFT_BUTTON GLUT_RIGHT_BUTTON GLUT_DOWN fuel a ->
  onKeyboard "R" e2 (onKeyboard "r" e1 a) = a
  /\ onKeyboard "r" e2 (onKeyboard "R" e1 a) = a.
Proof.
  intros Hreach.
  destruct (Reachable_texture fuel a Hreach) as (s0 & k & _ & Htex & _).
  assert (Hback : forall d d' : Z,
            (d + d' = 0)%Z ->
            increaseResolution (increaseResolution (star_texture (star a)) d) d'
            = star_texture (star a)).
  { intros d d' Hd. rewrite Htex, !increaseResolution_add.
    f_equal. lia. }
  rewrite !onKeyboard_r, !onKeyboard_R.
  destruct a as [[d tex p sr] an tm ml mr].
  unfold set_star, set_star_texture in *. cbn [star star_texture data phi
    selfRotation isAnimating time mouseLeftPressed mouseRightPressed] in *.
  split.
  - now rewrite (Hback 100%Z (-100)%Z eq_refl).
  - now rewrite (Hback (-100)%Z 100%Z eq_refl).
Qed.

End StarFacts.

(** ** The star and the handlers over the real numbers *)

Section StarReal.

Local Open Scope R_scope.

Lemma Reqb_true (a b : R) : a = b -> Reqb a b = true.
Proof. intros Hab. unfold Reqb. destruct (Req_dec_T a b); [reflexivity | contradiction]. Qed.

Lemma Reqb_false (a b : R) : a <> b -> Reqb a b = false.
Proof. intros Hab. unfold Reqb. destruct (Req_dec_T a b); [contradiction | reflexivity]. Qed.

Lemma schlankheitsfaktor_vertex_add (a b : R) (v : VertexData R) :
  schlankheitsfaktor_vertex b (schlankheitsfaktor_vertex a v)
  = schlankheitsfaktor_vertex (a + b) v.
Proof.
  destruct v as [[x y] [u w]]. unfold schlankheitsfaktor_vertex.
  cbn [uv position v2x v2y].
  destruct (u =? lit_0_5)%flt eqn:Hu5, (w =? of_int 1)%flt eqn:Hw1,
           (w =? of_int 0)%flt eqn:Hw0, (u =? of_int 0)%flt eqn:Hu0,
           (w =? lit_0_5)%flt eqn:Hw5, (u =? of_int 1)%flt eqn:Hu1;
    cbn [andb uv position v2x v2y];
    rewrite ?Hu5, ?Hw1, ?Hw0, ?Hu0, ?Hw5, ?Hu1;
    cbn [andb fadd fsub R_ops];
    try reflexivity; do 2 f_equal; lra.
Qed.

Lemma schlankheitsfaktor_vertex_0 (v : VertexData R) :
  schlankheitsfaktor_vertex 0 v = v.
Proof.
  destruct v as [[x y] [u w]]. unfold schlankheitsfaktor_vertex.
  cbn [uv position v2x v2y].
  repeat match goal with
         | |- context [if ?b then _ else _] => destruct b
         end;
    cbn [fadd fsub R_ops]; try reflexivity; do 2 f_equal; lra.
Qed.

Lemma schlankheitsfaktor_add (st : Star R) (a b : R) :
  schlankheitsfaktor (schlankheitsfaktor st a) b = schlankheitsfaktor st (a + b).
Proof.
  unfold schlankheitsfaktor. cbn [data star_texture phi selfRotation].
  f_equal. rewrite !schlankheitsfaktor_loop_map, map_map.
  apply map_ext. intros v. apply schlankheitsfaktor_vertex_add.
Qed.

Lemma schlankheitsfaktor_0 (st : Star R) : schlankheitsfaktor st 0 = st.
Proof.
  destruct st as [d tex p sr]. unfold schlankheitsfaktor.
  cbn [data star_texture phi selfRotation]. f_equal.
  rewrite schlankheitsfaktor_loop_map.
  rewrite (map_ext _ (fun v => v) schlankheitsfaktor_vertex_0). apply map_id.
Qed.

(** X14. Changing the shape by [a] and then by [b] is changing it by
    [a + b], for every star: each vertex takes the same branch both times
    because its texture coordinates never change.  Changing by [a] and then by
    [-a] gives the star back. *)
Theorem X14_schlankheitsfaktor_adds (st : Star R) (a b : R) :
  schlankheitsfaktor (schlankheitsfaktor st a) b = schlankheitsfaktor st (a + b)
  /\ schlankheitsfaktor (schlankheitsfaktor st a) (- a) = st.
Proof.
  split; [apply schlankheitsfaktor_add|].
  rewrite schlankheitsfaktor_add, Rplus_opp_r. apply schlankheitsfaktor_0.
Qed.

(** X15. The keys 'h' and 'H' undo each other in every state: pressing one
    and then the other gives back the state exactly. *)
Theorem X15_keys_h_H_undo_each_other (e1 e2 : Z) (a : App R) :
  onKeyboard "H" e2 (onKeyboard "h" e1 a) = a
  /\ onKeyboard "h" e2 (onKeyboard "H" e1 a) = a.
Proof.
  assert (Hh : forall e b, onKeyboard "h" e b
                 = set_star b (schlankheitsfaktor (star b) (IZR (-10))))
    by reflexivity.
  assert (HH : forall e b, onKeyboard "H" e b
                 = set_star b (schlankheitsfaktor (star b) (IZR 10)))
    by reflexivity.
  rewrite !Hh, !HH. destruct a as [st an tm ml mr]. unfold set_star.
  cbn [star isAnimating time mouseLeftPressed mouseRightPressed].
  rewrite !schlankheitsfaktor_add.
  replace (IZR (-10) + IZR 10) with 0 by lra.
  replace (IZR 10 + IZR (-10)) with 0 by lra.
  now rewrite schlankheitsfaktor_0.
Qed.

(** X16. On the shape [updateV] sets, [schlankheitsfaktor(s)] moves exactly
    the vertices 1, 3, 5, 7 and 9, each by [s] towards the center (50,30)
    along one axis; the center and the four outer corners stay where they
    are. *)
Theorem X16_schlankheitsfaktor_moves_inner_vertices (st : Star R) (s : R) :
  map (@position R) (data (schlankheitsfaktor (updateV st) s))
  = [ mkvec2 50 30; mkvec2 (70 - s) 30; mkvec2 90 70; mkvec2 50 (50 - s);
      mkvec2 10 70; mkvec2 (30 + s) 30; mkvec2 10 (-10); mkvec2 50 (10 + s);
      mkvec2 90 (-10); mkvec2 (70 - s) 30 ].
Proof.
  unfold schlankheitsfaktor, updateV.
  cbn [data schlankheitsfaktor_loop map].
  unfold schlankheitsfaktor_vertex.
  cbn [uv position v2x v2y feq R_eq of_int lit_0_5 fadd fsub R_ops].
  rewrite !(Reqb_true (1 / 2) (1 / 2)) by reflexivity.
  rewrite !(Reqb_true 1 1), !(Reqb_true 0 0) by reflexivity.
  rewrite !(Reqb_false (1 / 2) 1), !(Reqb_false (1 / 2) 0),
    !(Reqb_false 1 (1 / 2)), !(Reqb_false 0 (1 / 2)),
    !(Reqb_false 1 0), !(Reqb_false 0 1) by lra.
  reflexivity.
Qed.

(** X17. While the program is not animating, [onIdle] changes nothing.  The
    key 'a' then starts the animation and records the clock value [T] it is
    pressed at; an [onIdle] at clock value [now] sets both angles to
    [(now - T)/1000 · 2π/10]: zero at [T] itself, and one full turn more every
    10000 clock units. *)
Theorem X17_animation_timing (a : App R) (T now : Z) :
  isAnimating a = false ->
  let a' := onKeyboard "a" T a in
  onIdle now a = a
  /\ isAnimating a' = true /\ time a' = T /\ star a' = star a
  /\ phi (star (onIdle now a')) = IZR (now - T) / 1000 * (2 * PI / 10)
  /\ selfRotation (star (onIdle now a')) = phi (star (onIdle now a'))
  /\ phi (star (onIdle T a')) = 0
  /\ phi (star (onIdle (now + 10000) a')) = phi (star (onIdle now a')) + 2 * PI.
Proof.
  intros Hidle a'.
  assert (Ha' : a' = mkApp (star a) (negb (isAnimating a)) T
                       (mouseLeftPressed a) (mouseRightPressed a)) by reflexivity.
  assert (Hphi : forall t : Z,
            phi (star (onIdle t a')) = IZR (t - T) / 1000 * (2 * PI / 10)).
  { intros t. rewrite Ha', Hidle. reflexivity. }
  split; [unfold onIdle; now rewrite Hidle|].
  split; [rewrite Ha', Hidle; reflexivity|].
  split; [now rewrite Ha'|]. split; [now rewrite Ha'|].
  split; [apply Hphi|].
  split; [rewrite Ha', Hidle; reflexivity|].
  split.
  - rewrite Hphi, Z.sub_diag. unfold Rdiv. now rewrite !Rmult_0_l.
  - rewrite !Hphi. replace (now + 10000 - T)%Z with ((now - T) + 10000)%Z by lia.
    rewrite plus_IZR. field.
Qed.

End StarReal.

(** ** Instances of the further properties *)

Lemma construct_R (fuel : nat) (w h : Z) :
  (7 <= fuel)%nat -> exists s : PoincareTexture R, construct fuel w h = Some s.
Proof.
  intros Hfuel. unfold construct. rewrite math_member_init by assumption.
  eexists. reflexivity.
Qed.

Lemma onInitialization_R (fuel : nat) :
  (7 <= fuel)%nat -> exists a : App R, onInitialization fuel = Some a.
Proof.
  intros Hfuel. unfold onInitialization, Star_construct.
  destruct (construct_R fuel 300 300 Hfuel) as [s ->].
  eexists. reflexivity.
Qed.

(** X2 on the 300×300 object, for 'r' followed by 'R'. *)
Lemma X2_witness :
  exists s : PoincareTexture R,
    construct 7 300 300 = Some s
    /\ fold_right Z.add 0%Z [100; -100]%Z = 0%Z
    /\ fold_left increaseResolution [100; -100]%Z s = s.
Proof.
  destruct (construct_R 7 300 300 (le_n 7)) as [s Hs].
  exists s. split; [exact Hs | split; [reflexivity|]].
  exact (proj2 (X2_resolution_changes_round_trip 7 300 300 s [100; -100]%Z Hs)
           eq_refl).
Defined.

(** X4 on the only pixel of a 1×1 render. *)
Lemma X4_witness :
  In (pixel (member_init (F := R) 1 1) 1 0 0)
     (RenderToTexture (member_init (F := R) 1 1) 1 1)
  /\ (pixel (member_init (F := R) 1 1) 1 0 0 = mkvec4 0%R 0%R 0%R 1%R
      \/ pixel (member_init (F := R) 1 1) 1 0 0 = mkvec4 1%R 1%R 0%R 1%R
      \/ pixel (member_init (F := R) 1 1) 1 0 0 = mkvec4 0%R 0%R 1%R 1%R).
Proof.
  assert (Hin : In (pixel (member_init (F := R) 1 1) 1 0 0)
                   (RenderToTexture (member_init (F := R) 1 1) 1 1)).
  { rewrite RenderToTexture_grid. left. reflexivity. }
  split; [exact Hin|].
  exact (X4_render_three_colours (member_init 1 1) 1 1 _ Hin).
Defined.

(** X5 with fuel 7 on the 300×300 object. *)
Lemma X5_witness :
  exists s : PoincareTexture R,
    math 7 (member_init 300 300) = Some s
    /\ exists s2 : PoincareTexture R,
         math 7 s = Some s2
         /\ circles s2 = circles s ++ circles s ++ circles s ++ circles s.
Proof.
  eexists. split; [exact (math_member_init 7 300 300 (le_n 7))|].
  destruct (X5_math_again_quadruples 7 300 300 _
              (math_member_init 7 300 300 (le_n 7)))
    as (s2 & Hrun & _ & _ & Hcircles & _).
  exists s2. split; [exact Hrun | exact Hcircles].
Defined.

(** X7 for direction 1 and distance 2.5, with fuel 7. *)
Lemma X7_witness :
  (7 <= 7)%nat /\ (0 <= 1 < 9)%Z /\ (0 <= 2 < 6)%Z
  /\ exists s : PoincareTexture R,
       math 7 (member_init 300 300) = Some s
       /\ nth_error (circles s) 8
          = Some (mkvec3
                    (cos (IZR (1 * 40) * PI / 180)
                     * (cosh (1 / 2 + 2) / sinh (1 / 2 + 2)))%R
                    (sin (IZR (1 * 40) * PI / 180)
                     * (cosh (1 / 2 + 2) / sinh (1 / 2 + 2)))%R
                    (1 / sinh (1 / 2 + 2))%R)
       /\ (0 < 1 / sinh (1 / 2 + 2))%R.
Proof.
  split; [lia | split; [lia | split; [lia|]]].
  exact (X7_circle_center_and_radius 7 300 300 1 2
           (le_n 7) ltac:(lia) ltac:(lia)).
Defined.

(** X8 at the disk point (1/2, 0). *)
Lemma X8_witness :
  (0 < 1 / 2 * (1 / 2) + 0 * 0 <= 1)%R
  /\ calculateDistance (mkvec2 (1 / 2)%R 0%R) (circleOf (mkvec2 (1 / 2)%R 0%R))
     = v3z (circleOf (mkvec2 (1 / 2)%R 0%R)).
Proof.
  assert (Hq : (0 < 1 / 2 * (1 / 2) + 0 * 0 <= 1)%R) by lra.
  split; [exact Hq|].
  exact (proj1 (X8_circle_passes_through_its_point (mkvec2 (1 / 2)%R 0%R) Hq)).
Defined.

(** X9 for the circle built from the point (2, 0), seen from the origin. *)
Lemma X9_witness :
  (1 < 2 * 2 + 0 * 0)%R
  /\ (v3z (circleOf (mkvec2 2%R 0%R)) < 0)%R.
Proof.
  assert (Hq : (1 < 2 * 2 + 0 * 0)%R) by lra.
  split; [exact Hq|].
  exact (proj1 (proj2 (X9_negative_radius_never_counted (mkvec2 0%R 0%R))
                  (mkvec2 2%R 0%R) Hq)).
Defined.

(** X10 at index 150 of width 300. *)
Lemma X10_witness :
  (0 <= 150 < 300)%Z
  /\ (-1 <= normalized 150 300 < 1)%R.
Proof.
  split; [lia|].
  exact (proj1 (X10_normalized_range 300 150 ltac:(lia))).
Defined.

(** X11 in a render of width 1 and height 3: row 2 is past the width. *)
Lemma X11_witness :
  (0 < 1)%Z /\ (0 < 3)%Z /\ (0 <= 0 < 1)%Z /\ (1 < 2 < 3)%Z
  /\ nth_error (RenderToTexture (member_init (F := R) 1 3) 1 3) 2
     = Some (mkvec4 0%R 0%R 0%R 1%R).
Proof.
  split; [lia | split; [lia | split; [lia | split; [lia|]]]].
  exact (proj2 (X11_rows_past_width_are_black (member_init 1 3) 1 3
                  ltac:(lia) ltac:(lia))
           0%Z 2%Z ltac:(lia) ltac:(lia)).
Defined.

(** X12 in the state [onInitialization] leaves, with the constants of GLUT. *)
Lemma X12_witness :
  exists a : App R,
    Reachable 0 2 0 7 a
    /\ length (data (star a)) = 10%nat
    /\ phi (star a) = selfRotation (star a).
Proof.
  destruct (onInitialization_R 7 (le_n 7)) as [a Ha].
  exists a.
  assert (Hreach : Reachable 0 2 0 7 a) by (apply Reachable_init; exact Ha).
  split; [exact Hreach|].
  destruct (X12_reachable_invariant 0 2 0 7 a Hreach)
    as (s0 & k & _ & _ & _ & _ & _ & Hlen & _ & Hphi).
  split; [exact Hlen | exact Hphi].
Defined.

(** X13 in the state [onInitialization] leaves. *)
Lemma X13_witness :
  exists a : App R,
    Reachable 0 2 0 7 a
    /\ onKeyboard "R" 2000 (onKeyboard "r" 1000 a) = a.
Proof.
  destruct (onInitialization_R 7 (le_n 7)) as [a Ha].
  exists a.
  assert (Hreach : Reachable 0 2 0 7 a) by (apply Reachable_init; exact Ha).
  split; [exact Hreach|].
  exact (proj1 (X13_keys_r_R_undo_each_other 0 2 0 7 1000 2000 a Hreach)).
Defined.

(** X17 for a star at rest, with 'a' pressed at clock value 5000. *)
Lemma X17_witness :
  isAnimating
    (mkApp (mkStar [] (member_init (F := R) 300 300) 0%R 0%R) false 0 false false)
  = false
  /\ phi (star
            (onIdle 5000
               (onKeyboard "a" 5000
                  (mkApp (mkStar [] (member_init (F := R) 300 300) 0%R 0%R)
                     false 0 false false))))
     = 0%R.
Proof.
  split; [reflexivity|].
  destruct (X17_animation_timing
              (mkApp (mkStar [] (member_init (F := R) 300 300) 0%R 0%R)
                 false 0 false false) 5000 5000 eq_refl)
    as (_ & _ & _ & _ & _ & _ & Hzero & _).
  exact Hzero.
Defined.
